(** * Sorter: grouping of visually similar images

    A shallow embedding of [main.py]: file discovery, the pairwise
    comparison loop, the per-anchor grouping of qualifying pairs, the
    progress/ETA accounting and the CSV report, followed by the properties
    of the similarity-grouping core.

    Conventions of the embedding.
    - A similarity index is an integer divided by 256, a power of two, so
      the float quotient is exact and the index is a rational here.  The
      threshold comes from the command line and may also be an infinity or a
      NaN ([pyfloat]).
    - Wall-clock times, and the elapsed time and ETA computed from them, are
      IEEE doubles ([float]) with the arithmetic of the machine; the clock is
      part of the environment.
    - Code that raises is written in a state-and-error monad [M] over the
      [world]: the console, the clock, the files and what can be written to
      them, and a trace of the comparisons, qualifying pairs and progress
      steps of the run. *)

From Stdlib Require Import List String Ascii Bool Arith Lia ZArith QArith.
From Stdlib Require Import DecimalString DecimalNat.
From Stdlib Require Import Floats.
From Stdlib Require Uint63.
Import ListNotations.

Local Open Scope nat_scope.
Local Open Scope string_scope.
Local Open Scope list_scope.

Set Implicit Arguments.

(** ** Strings and paths *)

(** [str.endswith]. *)
Definition endswith (s suffix : string) : bool :=
  let n := String.length s in
  let m := String.length suffix in
  Nat.leb m n && String.eqb (substring (n - m) m s) suffix.

Fixpoint has_sep (p : string) : bool :=
  match p with
  | EmptyString => false
  | String c r => Ascii.eqb c "/" || has_sep r
  end.

(** [os.path.basename] (POSIX): what follows the last ['/']. *)
Fixpoint basename (p : string) : string :=
  match p with
  | EmptyString => EmptyString
  | String c r => if Ascii.eqb c "/" || has_sep r then basename r else p
  end.

(** [os.path.join] (POSIX) of two components. *)
Definition path_join (a b : string) : string :=
  if prefix "/" b then b
  else if String.eqb a "" || endswith a "/" then a ++ b
  else a ++ "/" ++ b.

(** [str(n)] for a non-negative integer. *)
Definition str_of_nat (n : nat) : string :=
  NilEmpty.string_of_uint (Nat.to_uint n).

(** ** Fingerprints and scores *)

(** A perceptual hash is a bit vector. *)
Definition fingerprint := list bool.

(** Modelled from the spec: the Fingerprint Provider is the external
    [imagehash] library; [hash1 - hash2] on its hashes is the Hamming
    distance, the number of positions at which the two bit vectors differ.
    The hashes of one provider have one length, so the positions are those
    of both vectors. *)
Fixpoint hash_sub (hash1 hash2 : fingerprint) : nat :=
  match hash1, hash2 with
  | b1 :: r1, b2 :: r2 => (if xorb b1 b2 then 1 else 0) + hash_sub r1 r2
  | _, _ => 0
  end.

(** [similarity_index /= 256]. *)
Definition normalize (raw : nat) : Q := Z.of_nat raw # 256.

(** A Python float as a threshold: a finite value, an infinity or NaN. *)
Inductive pyfloat : Type :=
| Finite (q : Q)
| PosInf
| NegInf
| NaN.

(** [similarity_index >= similarity_threshold] for a finite index. *)
Definition float_ge (similarity_index : Q) (similarity_threshold : pyfloat) : bool :=
  match similarity_threshold with
  | Finite t => Qle_bool t similarity_index
  | NegInf => true
  | PosInf | NaN => false
  end.

(** [t1 < t2] on floats; false when either side is NaN. *)
Definition float_lt (t1 t2 : pyfloat) : Prop :=
  match t1, t2 with
  | Finite a, Finite b => (a < b)%Q
  | Finite _, PosInf | NegInf, Finite _ | NegInf, PosInf => True
  | _, _ => False
  end.

(** ** Similarity groups: an insertion-ordered dictionary *)

Definition entry : Type := string * Q.
Definition groups : Type := list (string * list entry).

(** [key in d]. *)
Definition has_key (key : string) (d : groups) : bool :=
  existsb (fun g => String.eqb (fst g) key) d.

(** [d[key] = []] for a key: a new key goes last, an old one keeps its place. *)
Fixpoint set_empty (key : string) (d : groups) : groups :=
  match d with
  | [] => [(key, [])]
  | (k, v) :: r => if String.eqb k key then (k, []) :: r else (k, v) :: set_empty key r
  end.

(** [d[key].append(e)]; the key is present wherever the program does this. *)
Fixpoint append_to (key : string) (e : entry) (d : groups) : groups :=
  match d with
  | [] => []
  | (k, v) :: r => if String.eqb k key then (k, v ++ [e]) :: r else (k, v) :: append_to key e r
  end.

(** [f'Similarity Group {n}']. *)
Definition group_label (n : nat) : string := "Similarity Group " ++ str_of_nat n.

(** ** The report and the console *)

Inductive cell : Type :=
| Str (s : string)
| Num (q : Q).

Definition row : Type := list cell.
Definition csv : Type := list row.

Definition header : row := [Str "Similarity Group"; Str "Image File"; Str "Similarity Index"].

(** The lines the program prints. *)
Inductive line : Type :=
| Generating
| SimilarityLine (image1 image2 : string) (similarity_index : Q)
| ProgressLine (progress total_images : nat) (elapsed_time eta : float)
| WrittenTo (output_csv : string).

(** What a run does, whether or not it prints it. *)
Inductive event : Type :=
| Compared (i j : nat)
| Qualified (i j : nat) (similarity_index : Q)
| Progressed (progress : nat).

(** ** The world and the monad *)

Inductive exn : Type :=
| ImageDecodeError (path : string)
| ZeroDivisionError
| OSError (path : string).

Inductive result (A : Type) : Type :=
| Ok (a : A)
| Raise (e : exn).

Arguments Raise {A} e.

(** What [open(path, 'w')] and the writes after it meet: a path that cannot
    be opened (a missing directory, no permission), or a file that takes
    [limit] rows before a write fails ([None]: as many as are written). *)
Inductive medium : Type :=
| NoOpen
| Takes (limit : option nat).

(** [n] rows can be written in full. *)
Definition takes (m : medium) (n : nat) : bool :=
  match m with
  | NoOpen => false
  | Takes None => true
  | Takes (Some limit) => Nat.leb n limit
  end.

Record world : Type := World {
  console : list line;
  clock_reads : nat;
  files : string -> option csv;
  trace : list event;
  media : string -> medium
}.

Definition M (A : Type) : Type := world -> result A * world.

Definition ret {A} (a : A) : M A := fun w => (Ok a, w).

Definition bind {A B} (m : M A) (f : A -> M B) : M B :=
  fun w => match m w with
           | (Ok a, w') => f a w'
           | (Raise e, w') => (Raise e, w')
           end.

Definition raise {A} (e : exn) : M A := fun w => (Raise e, w).

Declare Scope M_scope.
Delimit Scope M_scope with M.
Notation "x <- m ;; k" := (bind m (fun x => k))
  (at level 61, m at next level, right associativity) : M_scope.
Notation "m ;; k" := (bind m (fun _ => k))
  (at level 61, right associativity) : M_scope.

Local Open Scope M_scope.

Definition lift {A} (r : result A) : M A := fun w => (r, w).

Definition print (l : line) : M unit :=
  fun w => (Ok tt, World (console w ++ [l]) (clock_reads w) (files w) (trace w) (media w)).

Definition emit (e : event) : M unit :=
  fun w => (Ok tt, World (console w) (clock_reads w) (files w) (trace w ++ [e]) (media w)).

Definition when (b : bool) (m : M unit) : M unit := if b then m else ret tt.

(** [for x in xs: s = body x s], stopping at the first exception. *)
Fixpoint for_each {St} (xs : list nat) (body : nat -> St -> M St) (s : St) : M St :=
  match xs with
  | [] => ret s
  | x :: r => s' <- body x s ;; for_each r body s'
  end.

(** [range(a, b)]. *)
Definition range (a b : nat) : list nat := seq a (b - a).

(** [open(path, 'w')], the rows written in order, and the close.  A path
    that cannot be opened raises and leaves every file as it was; an open
    file is truncated and takes the rows up to its limit, and a row beyond
    the limit raises. *)
Definition write_file (path : string) (content : csv) : M unit :=
  fun w =>
    match media w path with
    | NoOpen => (Raise (OSError path), w)
    | Takes limit =>
        let written :=
          match limit with
          | None => content
          | Some k => firstn k content
          end in
        (if takes (Takes limit) (List.length content) then Ok tt
         else Raise (OSError path),
         World (console w) (clock_reads w)
               (fun p => if String.eqb p path then Some written else files w p)
               (trace w) (media w))
    end.

(** The world after more lines and more events. *)
Definition log (w : world) (ls : list line) (es : list event) : world :=
  World (console w ++ ls) (clock_reads w) (files w) (trace w ++ es) (media w).

(** [float(n)] for a count (below 2^63, where the conversion of the machine
    is the one of Python). *)
Definition float_of_nat (n : nat) : float :=
  PrimFloat.of_uint63 (Uint63.of_Z (Z.of_nat n)).

(** ** The program *)

Section Program.

(** The environment of a run: the directory tree as [os.walk] lists it
    (directory path, file names), the image decoder ([Image.open] fails on
    a file that is no image), the perceptual hash (it fails on image data
    that cannot be decoded), and the successive readings of [time.time()]. *)
Variable os_walk : string -> list (string * list string).
Variable image : Type.
Variable Image_open : string -> option image.
Variable phash : image -> option fingerprint.
Variable clock : nat -> float.

Definition open_image (path : string) : M image :=
  match Image_open path with
  | Some im => ret im
  | None => raise (ImageDecodeError path)
  end.

Definition hash_image (path : string) (im : image) : M fingerprint :=
  match phash im with
  | Some h => ret h
  | None => raise (ImageDecodeError path)
  end.

Definition time_time : M float :=
  fun w => (Ok (clock (clock_reads w)),
            World (console w) (S (clock_reads w)) (files w) (trace w) (media w)).

Definition calculate_similarity_index (image1_path image2_path : string) : M nat :=
  image1 <- open_image image1_path ;;
  image2 <- open_image image2_path ;;
  hash1 <- hash_image image1_path image1 ;;
  hash2 <- hash_image image2_path image2 ;;
  ret (hash_sub hash1 hash2).

Definition is_image_name (filename : string) : bool :=
  endswith filename ".jpg" || endswith filename ".png" || endswith filename ".jpeg".

Definition get_image_files (directory : string) : list string :=
  flat_map (fun d => map (path_join (fst d)) (filter is_image_name (snd d)))
           (os_walk directory).

(** A float divided by an integer count: the count is converted to a float,
    and a zero divisor raises. *)
Definition truediv (a : float) (b : nat) : result float :=
  match b with
  | O => Raise ZeroDivisionError
  | S _ => Ok (a / float_of_nat b)%float
  end.

Section Run.

Variable similarity_threshold : pyfloat.
Variable verbose : bool.
Variable image_files : list string.

Definition file_at (i : nat) : string := nth i image_files "".

(** The body of the loop over [j]; its state is the local
    [similarity_group] and the dictionary. *)
Definition inner_body (i j : nat) (st : option string * groups)
  : M (option string * groups) :=
  let '(similarity_group, similarity_groups) := st in
  emit (Compared i j) ;;
  raw <- calculate_similarity_index (file_at i) (file_at j) ;;
  let similarity_index := normalize raw in
  when verbose (print (SimilarityLine (file_at i) (file_at j) similarity_index)) ;;
  if float_ge similarity_index similarity_threshold then
    emit (Qualified i j similarity_index) ;;
    let similarity_group :=
      match similarity_group with
      | None => group_label (List.length similarity_groups + 1)
      | Some g => g
      end in
    let similarity_groups :=
      if has_key similarity_group similarity_groups then similarity_groups
      else set_empty similarity_group similarity_groups in
    let similarity_groups :=
      append_to similarity_group (basename (file_at i), similarity_index)
                similarity_groups in
    let similarity_groups :=
      append_to similarity_group (basename (file_at j), similarity_index)
                similarity_groups in
    ret (Some similarity_group, similarity_groups)
  else ret (similarity_group, similarity_groups).

(** The body of the loop over [i]; its state is the dictionary and
    [progress]. *)
Definition outer_body (start_time : float) (i : nat) (st : groups * nat)
  : M (groups * nat) :=
  let '(similarity_groups, progress) := st in
  st' <- for_each (range (i + 1) (List.length image_files)) (inner_body i)
                  (None, similarity_groups) ;;
  let similarity_groups := snd st' in
  let progress := progress + 1 in
  emit (Progressed progress) ;;
  now <- time_time ;;
  let elapsed_time := (now - start_time)%float in
  time_per_image <-
    (if Nat.ltb 0 progress then lift (truediv elapsed_time progress) else ret 0%float) ;;
  let estimated_total_time :=
    (time_per_image * float_of_nat (List.length image_files))%float in
  let eta := (estimated_total_time - elapsed_time)%float in
  when verbose
    (print (ProgressLine progress (List.length image_files) elapsed_time eta)) ;;
  ret (similarity_groups, progress).

Definition comparison_loops : M groups :=
  start_time <- time_time ;;
  st <- for_each (range 0 (List.length image_files)) (outer_body start_time) ([], 0) ;;
  ret (fst st).

End Run.

Definition report_rows (similarity_groups : groups) : csv :=
  flat_map (fun g => map (fun im => [Str (fst g); Str (fst im); Num (snd im)]) (snd g))
           similarity_groups.

Definition generate_similarity_groups
    (image_directory : string) (similarity_threshold : pyfloat) (output_csv : string)
    (verbose use_light_model : bool) (batch_size : Z) : M unit :=
  when verbose (print Generating) ;;
  let image_files := get_image_files image_directory in
  similarity_groups <- comparison_loops similarity_threshold verbose image_files ;;
  write_file output_csv (header :: report_rows similarity_groups) ;;
  when verbose (print (WrittenTo output_csv)).

(** The parsed command line. *)
Record args : Type := Args {
  arg_image_directory : string;
  arg_similarity_threshold : pyfloat;
  arg_output_csv : string;
  arg_verbose : bool;
  arg_use_light_model : bool;
  arg_batch_size : Z
}.

(** The script: exit status 0 on a normal return, 1 on an uncaught
    exception. *)
Definition main (a : args) (w : world) : Z * world :=
  match generate_similarity_groups (arg_image_directory a) (arg_similarity_threshold a)
          (arg_output_csv a) (arg_verbose a) (arg_use_light_model a) (arg_batch_size a) w with
  | (Ok _, w') => (0%Z, w')
  | (Raise _, w') => (1%Z, w')
  end.

End Program.

Arguments file_at image_files i /.

(** ** Describing a run

    What a run computes, said without the loops: the score of a pair of
    indices, the entries a row of comparisons contributes, the groups in
    closed form, and the Grouping Engine as the specification words it. *)

Section Describe.

Variable image : Type.
Variable Image_open : string -> option image.
Variable phash : image -> option fingerprint.
Variable clock : nat -> float.
Variable similarity_threshold : pyfloat.
Variable verbose : bool.
Variable image_files : list string.

Definition fingerprint_of (path : string) : option fingerprint :=
  match Image_open path with
  | Some im => phash im
  | None => None
  end.

(** What [calculate_similarity_index] returns or raises. *)
Definition similarity (image1_path image2_path : string) : result nat :=
  match Image_open image1_path with
  | None => Raise (ImageDecodeError image1_path)
  | Some image1 =>
      match Image_open image2_path with
      | None => Raise (ImageDecodeError image2_path)
      | Some image2 =>
          match phash image1 with
          | None => Raise (ImageDecodeError image1_path)
          | Some hash1 =>
              match phash image2 with
              | None => Raise (ImageDecodeError image2_path)
              | Some hash2 => Ok (hash_sub hash1 hash2)
              end
          end
      end
  end.

Definition decodable (path : string) : bool :=
  match fingerprint_of path with
  | Some _ => true
  | None => false
  end.

Definition hash_at (i : nat) : fingerprint :=
  match fingerprint_of (nth i image_files "") with
  | Some h => h
  | None => []
  end.

Definition score (i j : nat) : Q := normalize (hash_sub (hash_at i) (hash_at j)).

Definition qualifies (i j : nat) : bool := float_ge (score i j) similarity_threshold.

Definition display_name (i : nat) : string := basename (nth i image_files "").

(** Every comparison of anchor [i] with the partners [js] decodes. *)
Definition row_ok (i : nat) (js : list nat) : bool :=
  forallb (fun j => decodable (nth i image_files "") && decodable (nth j image_files "")) js.

Definition rows_ok (anchors : list nat) : bool :=
  forallb (fun i => row_ok i (range (i + 1) (List.length image_files))) anchors.

(** The linear extrapolation of the remaining time, in doubles. *)
Definition eta_formula (elapsed : float) (completed total : nat) : float :=
  (elapsed / float_of_nat completed * float_of_nat total - elapsed)%float.

(** The two entries a qualifying pair appends. *)
Definition pair_entries (i j : nat) : list entry :=
  [(display_name i, score i j); (display_name j, score i j)].

(** The line printed for a pair, and the line printed after a row. *)
Definition pair_lines (i j : nat) : list line :=
  if verbose then
    [SimilarityLine (nth i image_files "") (nth j image_files "") (score i j)]
  else [].

Definition progress_lines (start_time : float) (reads progress : nat) : list line :=
  if verbose then
    [ProgressLine (S progress) (List.length image_files) (clock reads - start_time)
                  (eta_formula (clock reads - start_time) (S progress)
                               (List.length image_files))]
  else [].

(** The dictionary update of lines 61-66, as a function of the state. *)
Definition group_step (i j : nat) (st : option string * groups) : option string * groups :=
  let '(similarity_group, similarity_groups) := st in
  let similarity_group :=
    match similarity_group with
    | None => group_label (List.length similarity_groups + 1)
    | Some g => g
    end in
  let similarity_groups :=
    if has_key similarity_group similarity_groups then similarity_groups
    else set_empty similarity_group similarity_groups in
  let similarity_groups :=
    append_to similarity_group (display_name i, score i j) similarity_groups in
  let similarity_groups :=
    append_to similarity_group (display_name j, score i j) similarity_groups in
  (Some similarity_group, similarity_groups).

Definition pair_step (i : nat) (st : option string * groups) (j : nat)
  : option string * groups :=
  if qualifies i j then group_step i j st else st.

Definition row_step (similarity_groups : groups) (i : nat) : groups :=
  snd (fold_left (pair_step i) (range (i + 1) (List.length image_files))
                 (None, similarity_groups)).

(** The dictionary the two loops build when nothing raises. *)
Definition grouping : groups := fold_left row_step (range 0 (List.length image_files)) [].

(** *** The groups in closed form *)

Definition row_entries (i : nat) : list entry :=
  flat_map (fun j => if qualifies i j then pair_entries i j else [])
           (range (i + 1) (List.length image_files)).

(** The entries that the partners [js] of an anchor contribute. *)
Definition entries_of (i : nat) (js : list nat) : list entry :=
  flat_map (fun j => if qualifies i j then pair_entries i j else []) js.

(** Number the non-empty rows from [k] on. *)
Fixpoint number_from (k : nat) (rows : list (nat * list entry))
  : list (nat * (nat * list entry)) :=
  match rows with
  | [] => []
  | (i, []) :: r => number_from k r
  | (i, es) :: r => (k, (i, es)) :: number_from (S k) r
  end.

(** Label, anchor and entries of every group, in order of creation. *)
Definition anchored_groups : list (nat * (nat * list entry)) :=
  number_from 1 (map (fun i => (i, row_entries i)) (range 0 (List.length image_files))).

(** *** The Grouping Engine of the specification

    State A: no group yet for the anchor.  State B: a group is open. *)

Inductive engine_state : Type :=
| StateA
| StateB (label : nat).

Definition engine : Type := engine_state * list (nat * list entry).

(** Append to the group that carries the label. *)
Fixpoint append_group (label : nat) (es : list entry) (gs : list (nat * list entry))
  : list (nat * list entry) :=
  match gs with
  | [] => []
  | (k, v) :: r =>
      if Nat.eqb k label then (k, v ++ es) :: r else (k, v) :: append_group label es r
  end.

(** A qualifying edge [(i, j)]: in state A allocate the group with the next
    sequential integer and add both names, then go to state B; in state B
    append both names to the group opened in state A. *)
Definition on_edge (i j : nat) (e : engine) : engine :=
  match fst e with
  | StateA =>
      let n := List.length (snd e) + 1 in
      (StateB n, snd e ++ [(n, pair_entries i j)])
  | StateB n => (StateB n, append_group n (pair_entries i j) (snd e))
  end.

(** All [j] exhausted for an anchor: back to state A. *)
Definition on_exhausted (e : engine) : engine := (StateA, snd e).

Definition engine_pair (i : nat) (e : engine) (j : nat) : engine :=
  if qualifies i j then on_edge i j e else e.

Definition engine_row (e : engine) (i : nat) : engine :=
  on_exhausted (fold_left (engine_pair i) (range (i + 1) (List.length image_files)) e).

Definition engine_run : engine :=
  fold_left engine_row (range 0 (List.length image_files)) (StateA, []).

End Describe.

(** The dictionary that carries the engine's groups. *)
Definition labelled (gs : list (nat * list entry)) : groups :=
  map (fun g => (group_label (fst g), snd g)) gs.

(** ** Reading a trace *)

Definition all_pairs (n : nat) : list (nat * nat) :=
  flat_map (fun i => map (pair i) (range (i + 1) n)) (range 0 n).

Definition compared_pairs (tr : list event) : list (nat * nat) :=
  flat_map (fun e => match e with Compared i j => [(i, j)] | _ => [] end) tr.

Definition qualified_pairs (tr : list event) : list (nat * nat) :=
  flat_map (fun e => match e with Qualified i j _ => [(i, j)] | _ => [] end) tr.

Definition progress_steps (tr : list event) : list nat :=
  flat_map (fun e => match e with Progressed k => [k] | _ => [] end) tr.

(** The events of one row of comparisons and of a whole run. *)
Definition pair_events (qual : nat -> nat -> bool) (sc : nat -> nat -> Q) (i j : nat)
  : list event :=
  Compared i j :: (if qual i j then [Qualified i j (sc i j)] else []).

Definition row_events (qual : nat -> nat -> bool) (sc : nat -> nat -> Q) (n i : nat)
  : list event :=
  flat_map (pair_events qual sc i) (range (i + 1) n) ++ [Progressed (i + 1)].

Definition run_events (qual : nat -> nat -> bool) (sc : nat -> nat -> Q) (n : nat)
  : list event :=
  flat_map (row_events qual sc n) (range 0 n).

(** One sequence is the other with entries left out. *)
Inductive subseq {A : Type} : list A -> list A -> Prop :=
| subseq_nil : subseq [] []
| subseq_skip x l1 l2 : subseq l1 l2 -> subseq l1 (x :: l2)
| subseq_keep x l1 l2 : subseq l1 l2 -> subseq (x :: l1) (x :: l2).

(** ** Invariants and relations of the proofs *)

(** The labels of the groups made so far are 1, 2, ... in this order. *)
Definition labels_ok (gs : list (nat * list entry)) : Prop :=
  map fst gs = seq 1 (List.length gs).

Definition state_label (s : engine_state) : option string :=
  match s with
  | StateA => None
  | StateB n => Some (group_label n)
  end.

(** The state of the loops carries the state of the engine. *)
Definition refines (st : option string * groups) (e : engine) : Prop :=
  fst st = state_label (fst e) /\ snd st = labelled (snd e).

Definition engine_wf (e : engine) : Prop :=
  labels_ok (snd e) /\
  match fst e with
  | StateA => True
  | StateB n => In n (map fst (snd e))
  end.

Definition strip (g : nat * (nat * list entry)) : nat * list entry := (fst g, snd (snd g)).

(** A progress line reports a positive count and the linear extrapolation
    for it. *)
Definition extrapolated (l : line) : Prop :=
  match l with
  | ProgressLine progress total_images elapsed_time eta =>
      1 <= progress /\ eta = eta_formula elapsed_time progress total_images
  | _ => True
  end.

(** Two worlds that differ at most in what was printed. *)
Definition same_effects (w1 w2 : world) : Prop :=
  clock_reads w1 = clock_reads w2 /\ files w1 = files w2 /\ trace w1 = trace w2 /\
  media w1 = media w2.

(** Two computations that return, raise, write and record the same. *)
Definition agree {A : Type} (m1 m2 : M A) : Prop :=
  forall w1 w2, same_effects w1 w2 ->
    fst (m1 w1) = fst (m2 w2) /\ same_effects (snd (m1 w1)) (snd (m2 w2)).

(** ** A directory to run on *)

Module Album.

Definition zeros : fingerprint := repeat false 64.
Definition ones : fingerprint := repeat true 64.
Definition half : fingerprint := repeat true 32 ++ repeat false 32.

(** The image files that decode, with their fingerprints. *)
Definition store : list (string * fingerprint) :=
  [("pics/a.jpg", zeros); ("pics/b.png", ones); ("pics/sub/c.jpeg", half);
   ("pics/sub/a.jpg", zeros);
   ("twins/x.jpg", half); ("twins/y.jpg", half);
   ("broken/x.jpg", zeros); ("broken/y.jpg", ones);
   ("single/only.png", half)].

Definition os_walk (directory : string) : list (string * list string) :=
  if String.eqb directory "pics" then
    [("pics", ["a.jpg"; "notes.txt"; "b.png"]); ("pics/sub", ["c.jpeg"; "a.jpg"])]
  else if String.eqb directory "twins" then [("twins", ["x.jpg"; "y.jpg"])]
  else if String.eqb directory "broken" then [("broken", ["x.jpg"; "bad.jpg"; "y.jpg"])]
  else if String.eqb directory "single" then [("single", ["only.png"])]
  else [(directory, [])].

Definition Image_open (path : string) : option fingerprint :=
  option_map snd (find (fun e => String.eqb (fst e) path) store).

Definition phash (im : fingerprint) : option fingerprint := Some im.

Definition clock (n : nat) : float := float_of_nat n.

(** Nothing printed, no clock reading, no file yet, every path writable. *)
Definition fresh : world := World [] 0 (fun _ => None) [] (fun _ => Takes None).

(** As [fresh], but [out.csv] cannot be opened for writing. *)
Definition locked : world :=
  World [] 0 (fun _ => None) []
        (fun path => if String.eqb path "out.csv" then NoOpen else Takes None).

(** As [fresh], but [out.csv] takes three rows and no more. *)
Definition cramped : world :=
  World [] 0 (fun _ => None) []
        (fun path => if String.eqb path "out.csv" then Takes (Some 3) else Takes None).

End Album.

(** ** More descriptions of a run *)

Section Describe_more.

Variable image : Type.
Variable Image_open : string -> option image.
Variable phash : image -> option fingerprint.
Variable similarity_threshold : pyfloat.
Variable image_files : list string.

(** The anchor [i] has a later image that qualifies with it. *)
Definition has_partner (i : nat) : bool :=
  existsb (qualifies Image_open phash similarity_threshold image_files i)
          (range (i + 1) (List.length image_files)).

(** The pairs that qualify, in row-major order. *)
Definition qualifying_pairs : list (nat * nat) :=
  filter (fun p => qualifies Image_open phash similarity_threshold image_files (fst p) (snd p))
         (all_pairs (List.length image_files)).

End Describe_more.

(** The progress lines among the lines printed. *)
Definition is_progress (l : line) : bool :=
  match l with
  | ProgressLine _ _ _ _ => true
  | _ => false
  end.

Section Describe_console.

Variable image : Type.
Variable Image_open : string -> option image.
Variable phash : image -> option fingerprint.
Variable clock : nat -> float.
Variable verbose : bool.
Variable image_files : list string.

(** What the loop over [i] prints for the [n] anchors from [a] on when
    nothing raises, with the start time read at [r0] and [reads] readings of
    the clock made so far. *)
Fixpoint loop_lines (r0 reads a n : nat) : list line :=
  match n with
  | O => []
  | S n' =>
      flat_map (pair_lines Image_open phash verbose image_files a)
               (range (a + 1) (List.length image_files))
      ++ progress_lines clock verbose image_files (clock r0) reads a
      ++ loop_lines r0 (S reads) (S a) n'
  end.

End Describe_console.

(** * Properties *)

(** ** Labels *)

Lemma str_of_nat_inj (a b : nat) : str_of_nat a = str_of_nat b -> a = b.
Proof.
  unfold str_of_nat. intros H.
  apply Unsigned.to_uint_inj.
  assert (E : Some (Nat.to_uint a) = Some (Nat.to_uint b)).
  { rewrite <- (NilEmpty.usu (Nat.to_uint a)), <- (NilEmpty.usu (Nat.to_uint b)).
    now rewrite H. }
  now inversion E.
Qed.

Lemma group_label_inj (a b : nat) : group_label a = group_label b -> a = b.
Proof.
  unfold group_label. cbn [append]. intros H.
  apply str_of_nat_inj. now inversion H.
Qed.

Lemma group_label_eqb (a b : nat) :
  String.eqb (group_label a) (group_label b) = Nat.eqb a b.
Proof.
  destruct (Nat.eqb_spec a b) as [->|N].
  - apply String.eqb_refl.
  - apply String.eqb_neq. intros H. now apply N, group_label_inj.
Qed.

(** ** Distances and scores *)

Lemma hash_sub_diag (h : fingerprint) : hash_sub h h = 0.
Proof.
  induction h as [|b h IH]; cbn; [reflexivity|].
  now rewrite xorb_nilpotent, IH.
Qed.

Lemma hash_sub_comm (h1 h2 : fingerprint) : hash_sub h1 h2 = hash_sub h2 h1.
Proof.
  revert h2. induction h1 as [|b h1 IH]; intros [|c h2]; cbn; try reflexivity.
  now rewrite xorb_comm, IH.
Qed.

Lemma hash_sub_le (h1 h2 : fingerprint) : hash_sub h1 h2 <= List.length h1.
Proof.
  revert h2. induction h1 as [|b h1 IH]; intros [|c h2]; cbn; try lia.
  specialize (IH h2). destruct (xorb b c); lia.
Qed.

Lemma normalize_nonneg (raw : nat) : (0 <= normalize raw)%Q.
Proof. unfold normalize, Qle; cbn. lia. Qed.

Lemma normalize_le_1 (raw : nat) : (normalize raw <= 1)%Q <-> raw <= 256.
Proof. unfold normalize, Qle; cbn. lia. Qed.

Lemma normalize_eq_0 (raw : nat) : (normalize raw == 0)%Q <-> raw = 0.
Proof. unfold normalize, Qeq; cbn. lia. Qed.

Lemma normalize_eq_1 (raw : nat) : (normalize raw == 1)%Q <-> raw = 256.
Proof. unfold normalize, Qeq; cbn. lia. Qed.

Lemma normalize_quotient (raw : nat) :
  (normalize raw == inject_Z (Z.of_nat raw) / 256)%Q.
Proof. unfold normalize. rewrite Qmake_Qdiv. reflexivity. Qed.

(** ** The threshold gate *)

Lemma float_ge_antitone (s : Q) (t1 t2 : pyfloat) :
  float_lt t1 t2 -> float_ge s t2 = true -> float_ge s t1 = true.
Proof.
  destruct t1 as [a| | |], t2 as [b| | |]; cbn; try easy.
  intros L G. apply Qle_bool_iff in G. apply Qle_bool_iff.
  apply Qlt_le_weak. eapply Qlt_le_trans; eassumption.
Qed.

Lemma float_ge_zero_pos (t : pyfloat) :
  float_lt (Finite 0) t -> float_ge 0 t = false.
Proof.
  destruct t as [a| | |]; cbn; try easy.
  intros L. destruct (Qle_bool a 0) eqn:E; [|reflexivity].
  apply Qle_bool_iff in E. exfalso. eapply Qlt_irrefl, Qlt_le_trans; eassumption.
Qed.

(** ** Running the monad *)

(** A property of the world that every iteration keeps is kept by the loop. *)
Lemma for_each_world {St} (P : world -> Prop) (body : nat -> St -> M St) :
  (forall x s w, P w -> P (snd (body x s w))) ->
  forall xs s w, P w -> P (snd (for_each xs body s w)).
Proof.
  intros Hbody xs. induction xs as [|x xs IH]; intros s w Hw; cbn.
  - exact Hw.
  - unfold bind. specialize (Hbody x s w Hw).
    destruct (body x s w) as [[s'|e] w']; cbn in *; [now apply IH | exact Hbody].
Qed.

Section Plumbing.

Variable os_walk : string -> list (string * list string).
Variable image : Type.
Variable Image_open : string -> option image.
Variable phash : image -> option fingerprint.
Variable clock : nat -> float.

Local Abbreviation sim := (similarity Image_open phash).
Local Abbreviation dec := (decodable Image_open phash).
Local Abbreviation fp_of := (fingerprint_of Image_open phash).

Lemma calculate_similarity_index_run (p1 p2 : string) (w : world) :
  calculate_similarity_index Image_open phash p1 p2 w = (sim p1 p2, w).
Proof.
  unfold calculate_similarity_index, similarity, bind, open_image, hash_image.
  destruct (Image_open p1) as [im1|]; cbn; [|reflexivity].
  destruct (Image_open p2) as [im2|]; cbn; [|reflexivity].
  destruct (phash im1) as [h1|]; cbn; [|reflexivity].
  destruct (phash im2) as [h2|]; cbn; reflexivity.
Qed.

Lemma similarity_ok (p1 p2 : string) (h1 h2 : fingerprint) :
  fp_of p1 = Some h1 -> fp_of p2 = Some h2 ->
  sim p1 p2 = Ok (hash_sub h1 h2).
Proof.
  unfold similarity, fingerprint_of.
  destruct (Image_open p1) as [im1|]; [|discriminate].
  destruct (Image_open p2) as [im2|]; [|discriminate].
  intros -> ->. reflexivity.
Qed.

Lemma similarity_raise (p1 p2 : string) (e : exn) :
  sim p1 p2 = Raise e ->
  exists p, e = ImageDecodeError p /\ (p = p1 \/ p = p2) /\ dec p = false.
Proof.
  unfold similarity, decodable, fingerprint_of.
  destruct (Image_open p1) as [im1|] eqn:O1.
  2:{ intros E; inversion E. exists p1. rewrite O1. auto. }
  destruct (Image_open p2) as [im2|] eqn:O2.
  2:{ intros E; inversion E. exists p2. rewrite O2. auto. }
  destruct (phash im1) as [h1|] eqn:H1.
  2:{ intros E; inversion E. exists p1. rewrite O1, H1. auto. }
  destruct (phash im2) as [h2|] eqn:H2.
  2:{ intros E; inversion E. exists p2. rewrite O2, H2. auto. }
  discriminate.
Qed.

Lemma decodable_fingerprint (p : string) :
  dec p = true -> exists h, fp_of p = Some h.
Proof.
  unfold decodable. destruct (fp_of p) as [h|]; [eauto | discriminate].
Qed.

Lemma similarity_undecodable (p1 p2 : string) :
  dec p1 && dec p2 = false -> exists e, sim p1 p2 = Raise e.
Proof.
  unfold similarity, decodable, fingerprint_of.
  destruct (Image_open p1) as [im1|]; [|eauto].
  destruct (Image_open p2) as [im2|]; [|eauto].
  destruct (phash im1) as [h1|]; [|eauto].
  destruct (phash im2) as [h2|]; [|eauto].
  discriminate.
Qed.

Lemma log_nil (w : world) : log w [] [] = w.
Proof. destruct w; unfold log; cbn. now rewrite !app_nil_r. Qed.

Lemma log_log (w : world) (l1 l2 : list line) (e1 e2 : list event) :
  log (log w l1 e1) l2 e2 = log w (l1 ++ l2) (e1 ++ e2).
Proof. unfold log; cbn. now rewrite !app_assoc. Qed.

(** *** The loop over [j] *)

Variable similarity_threshold : pyfloat.
Variable verbose : bool.
Variable image_files : list string.

Local Abbreviation f := (fun i => nth i image_files "").
Local Abbreviation sc := (score Image_open phash image_files).
Local Abbreviation qual := (qualifies Image_open phash similarity_threshold image_files).
Local Abbreviation inner :=
  (inner_body Image_open phash similarity_threshold verbose image_files).
Local Abbreviation pstep := (pair_step Image_open phash similarity_threshold image_files).
Local Abbreviation rstep := (row_step Image_open phash similarity_threshold image_files).
Local Abbreviation r_ok := (row_ok Image_open phash image_files).
Local Abbreviation rs_ok := (rows_ok Image_open phash image_files).
Local Abbreviation N := (List.length image_files).
Local Abbreviation plines := (pair_lines Image_open phash verbose image_files).
Local Abbreviation prlines := (progress_lines clock verbose image_files).

Lemma similarity_score (i j raw : nat) :
  sim (f i) (f j) = Ok raw -> normalize raw = sc i j.
Proof.
  unfold similarity, score, hash_at, fingerprint_of.
  destruct (Image_open (f i)) as [im1|]; [|discriminate].
  destruct (Image_open (f j)) as [im2|]; [|discriminate].
  destruct (phash im1) as [h1|]; [|discriminate].
  destruct (phash im2) as [h2|]; [|discriminate].
  intros E. now inversion E.
Qed.

Lemma inner_body_ok (i j raw : nat) (st : option string * groups) (w : world) :
  sim (f i) (f j) = Ok raw ->
  inner i j st w = (Ok (pstep i st j), log w (plines i j) (pair_events qual sc i j)).
Proof.
  intros E. pose proof (similarity_score _ _ E) as Es.
  destruct st as [sg gs].
  unfold inner_body, bind, emit, file_at. cbn.
  rewrite calculate_similarity_index_run; cbn. rewrite E, Es.
  unfold pair_step, pair_events, pair_lines, qualifies, group_step, display_name, log, when.
  destruct verbose; cbn;
    destruct (float_ge (sc i j) similarity_threshold); cbn;
    rewrite <- ?app_assoc; cbn; rewrite ?app_nil_r; reflexivity.
Qed.

Lemma inner_body_raise (i j : nat) (e : exn) (st : option string * groups) (w : world) :
  sim (f i) (f j) = Raise e ->
  inner i j st w = (Raise e, log w [] [Compared i j]).
Proof.
  intros E. destruct st as [sg gs].
  unfold inner_body, bind, emit, file_at. cbn.
  rewrite calculate_similarity_index_run; cbn. rewrite E.
  unfold log; cbn. now rewrite app_nil_r.
Qed.

Lemma similarity_decodable (p1 p2 : string) :
  dec p1 && dec p2 = true -> exists raw, sim p1 p2 = Ok raw.
Proof.
  intros D. apply andb_prop in D as [D1 D2].
  apply decodable_fingerprint in D1 as [h1 H1], D2 as [h2 H2].
  exists (hash_sub h1 h2). now apply similarity_ok.
Qed.

Lemma inner_loop_ok (i : nat) (js : list nat) (st : option string * groups) (w : world) :
  r_ok i js = true ->
  for_each js (inner i) st w =
  (Ok (fold_left (pstep i) js st),
   log w (flat_map (plines i) js) (flat_map (pair_events qual sc i) js)).
Proof.
  revert st w. induction js as [|j js IH]; intros st w R; cbn.
  - now rewrite log_nil.
  - cbn in R. apply andb_prop in R as [D R].
    destruct (similarity_decodable _ _ D) as [raw E].
    unfold bind. rewrite (inner_body_ok _ _ _ _ E).
    rewrite (IH _ _ R), log_log. reflexivity.
Qed.

Lemma inner_loop_raise (i : nat) (js : list nat) (st : option string * groups) (w : world) :
  r_ok i js = false ->
  exists js1 j js2 e,
    js = js1 ++ j :: js2 /\ r_ok i js1 = true /\ sim (f i) (f j) = Raise e /\
    for_each js (inner i) st w =
    (Raise e, log w (flat_map (plines i) js1)
                    (flat_map (pair_events qual sc i) js1 ++ [Compared i j])).
Proof.
  revert st w. induction js as [|j js IH]; intros st w R; cbn in R.
  - discriminate.
  - destruct (dec (f i) && dec (f j)) eqn:D; cbn in R.
    + destruct (similarity_decodable _ _ D) as [raw E].
      destruct (IH (pstep i st j) (log w (plines i j) (pair_events qual sc i j)) R)
        as (js1 & j' & js2 & e & -> & R1 & E' & Run).
      exists (j :: js1), j', js2, e. repeat split.
      * unfold row_ok in *. cbn. rewrite D. exact R1.
      * exact E'.
      * cbn [for_each]. unfold bind. rewrite (inner_body_ok _ _ _ _ E), Run, log_log.
        cbn [flat_map]. now rewrite <- app_assoc.
    + destruct (similarity_undecodable _ _ D) as [e E].
      exists [], j, js, e. repeat split; [exact E|].
      cbn [for_each]. unfold bind. now rewrite (inner_body_raise _ _ _ _ E).
Qed.

(** *** The loop over [i] *)

Local Abbreviation outer :=
  (outer_body Image_open phash clock similarity_threshold verbose image_files).

Lemma outer_body_ok (start_time : float) (i progress : nat) (gs : groups) (w : world) :
  r_ok i (range (i + 1) N) = true ->
  outer start_time i (gs, progress) w =
  (Ok (rstep gs i, S progress),
   World (console w ++ flat_map (plines i) (range (i + 1) N)
                   ++ prlines start_time (clock_reads w) progress)
         (S (clock_reads w)) (files w)
         (trace w ++ flat_map (pair_events qual sc i) (range (i + 1) N)
                 ++ [Progressed (S progress)])
         (media w)).
Proof.
  intros R. unfold outer_body, bind.
  rewrite (inner_loop_ok _ _ _ _ R). rewrite Nat.add_1_r.
  unfold emit, time_time, lift, truediv.
  cbn [log console clock_reads files trace media fst snd Nat.ltb Nat.leb].
  unfold progress_lines, eta_formula, row_step, when, print, ret.
  destruct verbose; cbn [console clock_reads files trace media fst snd];
    rewrite <- ?app_assoc, ?app_nil_r; reflexivity.
Qed.

Lemma outer_body_raise (start_time : float) (i progress : nat) (gs : groups) (w : world) :
  r_ok i (range (i + 1) N) = false ->
  exists js1 j js2 e,
    range (i + 1) N = js1 ++ j :: js2 /\ r_ok i js1 = true /\
    sim (f i) (f j) = Raise e /\
    outer start_time i (gs, progress) w =
    (Raise e, log w (flat_map (plines i) js1)
                    (flat_map (pair_events qual sc i) js1 ++ [Compared i j])).
Proof.
  intros R.
  destruct (inner_loop_raise i _ (None, gs) w R) as (js1 & j & js2 & e & Ejs & R1 & E & Run).
  exists js1, j, js2, e. repeat split; try assumption.
  unfold outer_body, bind. now rewrite Run.
Qed.

Lemma outer_loop_ok (start_time : float) (n a : nat) (gs : groups) (w : world) :
  rs_ok (seq a n) = true ->
  let r := for_each (seq a n) (outer start_time) (gs, a) w in
  fst r = Ok (fold_left rstep (seq a n) gs, a + n) /\
  trace (snd r) = trace w ++ flat_map (row_events qual sc N) (seq a n) /\
  files (snd r) = files w /\
  clock_reads (snd r) = clock_reads w + n.
Proof.
  revert a gs w. induction n as [|n IH]; intros a gs w R; cbn zeta.
  - cbn. rewrite app_nil_r, !Nat.add_0_r. auto.
  - cbn in R. apply andb_prop in R as [R0 R].
    cbn [seq for_each]. unfold bind. rewrite (outer_body_ok _ _ _ _ _ R0).
    destruct (IH (S a) (rstep gs a)
                 (World (console w ++ flat_map (plines a) (range (a + 1) N)
                                 ++ prlines start_time (clock_reads w) a)
                        (S (clock_reads w)) (files w)
                        (trace w ++ flat_map (pair_events qual sc a) (range (a + 1) N)
                                ++ [Progressed (S a)])
                        (media w)) R) as (I1 & I2 & I3 & I4).
    repeat split.
    + rewrite I1. cbn [fold_left]. f_equal. f_equal. lia.
    + rewrite I2. cbn [trace flat_map]. unfold row_events at 2.
      rewrite Nat.add_1_r at 3. now rewrite <- !app_assoc.
    + rewrite I3. reflexivity.
    + rewrite I4. cbn [clock_reads]. lia.
Qed.

Lemma outer_loop_raise (start_time : float) (n a : nat) (gs : groups) (w : world) :
  rs_ok (seq a n) = false ->
  exists is1 i is2 js1 j js2 e,
    seq a n = is1 ++ i :: is2 /\ rs_ok is1 = true /\
    range (i + 1) N = js1 ++ j :: js2 /\ r_ok i js1 = true /\
    sim (f i) (f j) = Raise e /\
    let r := for_each (seq a n) (outer start_time) (gs, a) w in
    fst r = Raise e /\
    trace (snd r) = trace w ++ flat_map (row_events qual sc N) is1
                            ++ flat_map (pair_events qual sc i) js1 ++ [Compared i j] /\
    files (snd r) = files w.
Proof.
  revert a gs w. induction n as [|n IH]; intros a gs w R; cbn in R.
  - discriminate.
  - destruct (r_ok a (range (a + 1) N)) eqn:R0; cbn in R.
    + destruct (IH (S a) (rstep gs a)
                 (World (console w ++ flat_map (plines a) (range (a + 1) N)
                                 ++ prlines start_time (clock_reads w) a)
                        (S (clock_reads w)) (files w)
                        (trace w ++ flat_map (pair_events qual sc a) (range (a + 1) N)
                                ++ [Progressed (S a)])
                        (media w)) R)
        as (is1 & i & is2 & js1 & j & js2 & e & Eis & Ris & Ejs & Rjs & E & I1 & I2 & I3).
      exists (a :: is1), i, is2, js1, j, js2, e. repeat split; try assumption.
      * cbn [seq]. now rewrite Eis.
      * unfold rows_ok in *. cbn. now rewrite R0, Ris.
      * cbn [seq for_each]. unfold bind. rewrite (outer_body_ok _ _ _ _ _ R0). exact I1.
      * cbn [seq for_each]. unfold bind. rewrite (outer_body_ok _ _ _ _ _ R0).
        rewrite I2. cbn [trace flat_map]. unfold row_events at 2.
        rewrite Nat.add_1_r at 3. now rewrite <- !app_assoc.
      * cbn [seq for_each]. unfold bind. rewrite (outer_body_ok _ _ _ _ _ R0).
        rewrite I3. reflexivity.
    + destruct (outer_body_raise start_time a a gs w R0)
        as (js1 & j & js2 & e & Ejs & Rjs & E & Run).
      exists [], a, (seq (S a) n), js1, j, js2, e. repeat split; try assumption.
      * cbn [seq for_each]. unfold bind. now rewrite Run.
      * cbn [seq for_each]. unfold bind. rewrite Run. reflexivity.
      * cbn [seq for_each]. unfold bind. rewrite Run. reflexivity.
Qed.

(** *** The two loops together *)

Lemma range_0 (n : nat) : range 0 n = seq 0 n.
Proof. unfold range. now rewrite Nat.sub_0_r. Qed.

Local Abbreviation loops :=
  (comparison_loops Image_open phash clock similarity_threshold verbose image_files).

Lemma comparison_loops_ok (w : world) :
  rs_ok (range 0 N) = true ->
  fst (loops w) = Ok (grouping Image_open phash similarity_threshold image_files) /\
  trace (snd (loops w)) = trace w ++ run_events qual sc N /\
  files (snd (loops w)) = files w.
Proof.
  intros R. unfold comparison_loops, bind, time_time. unfold range in *.
  rewrite Nat.sub_0_r in *.
  destruct (outer_loop_ok (clock (clock_reads w)) N 0 []
              (World (console w) (S (clock_reads w)) (files w) (trace w) (media w)) R)
    as (I1 & I2 & I3 & _).
  cbn zeta in *.
  destruct (for_each (seq 0 N) _ _ _) as [[st|e] w']; cbn in *; [|discriminate].
  inversion I1; subst st. unfold ret; cbn.
  unfold grouping, run_events, range. rewrite Nat.sub_0_r. auto.
Qed.

Lemma comparison_loops_raise (w : world) :
  rs_ok (range 0 N) = false ->
  exists is1 i is2 js1 j js2 e,
    range 0 N = is1 ++ i :: is2 /\ rs_ok is1 = true /\
    range (i + 1) N = js1 ++ j :: js2 /\ r_ok i js1 = true /\
    sim (f i) (f j) = Raise e /\
    fst (loops w) = Raise e /\
    trace (snd (loops w)) = trace w ++ flat_map (row_events qual sc N) is1
                                    ++ flat_map (pair_events qual sc i) js1
                                    ++ [Compared i j] /\
    files (snd (loops w)) = files w.
Proof.
  intros R. rewrite range_0 in R.
  destruct (outer_loop_raise (clock (clock_reads w)) N 0 []
              (World (console w) (S (clock_reads w)) (files w) (trace w) (media w)) R)
    as (is1 & i & is2 & js1 & j & js2 & e & Eis & Ris & Ejs & Rjs & E & I1 & I2 & I3).
  exists is1, i, is2, js1, j, js2, e.
  unfold comparison_loops, bind, time_time. rewrite !range_0.
  cbn zeta in *.
  destruct (for_each (seq 0 N) _ _ _) as [[st|e'] w']; cbn in *; [discriminate|].
  inversion I1; subst e'. repeat split; assumption.
Qed.

(** The loops leave alone what can be written. *)
Lemma outer_body_media (start_time : float) (i : nat) (st : groups * nat) (w : world) :
  media (snd (outer start_time i st w)) = media w.
Proof.
  destruct st as [gs progress]. destruct (r_ok i (range (i + 1) N)) eqn:R.
  - now rewrite (outer_body_ok start_time i progress gs w R).
  - destruct (outer_body_raise start_time i progress gs w R)
      as (js1 & j & js2 & e & _ & _ & _ & Run).
    now rewrite Run.
Qed.

Lemma comparison_loops_media (w : world) : media (snd (loops w)) = media w.
Proof.
  unfold comparison_loops, bind, time_time.
  pose proof (for_each_world (fun w' => media w' = media w)
                (outer (clock (clock_reads w)))
                (fun x s w' H => eq_trans (outer_body_media _ x s w') H)
                (range 0 N) ([], 0)
                (World (console w) (S (clock_reads w)) (files w) (trace w) (media w))
                eq_refl) as K.
  destruct (for_each _ _ _ _) as [[st|e] w']; exact K.
Qed.

End Plumbing.

(** ** Writing the report *)

Lemma write_file_ok (path : string) (content : csv) (w : world) :
  takes (media w path) (List.length content) = true ->
  write_file path content w =
  (Ok tt,
   World (console w) (clock_reads w)
         (fun p => if String.eqb p path then Some content else files w p)
         (trace w) (media w)).
Proof.
  unfold write_file. destruct (media w path) as [|[k|]]; cbn [takes]; intros H.
  - discriminate.
  - rewrite H. apply Nat.leb_le in H. now rewrite firstn_all2.
  - reflexivity.
Qed.

Lemma write_file_console (path : string) (content : csv) (w : world) :
  console (snd (write_file path content w)) = console w.
Proof. unfold write_file. now destruct (media w path) as [|[k|]]. Qed.

Lemma write_file_fails (path : string) (content : csv) (w : world) :
  takes (media w path) (List.length content) = false ->
  fst (write_file path content w) = Raise (OSError path) /\
  console (snd (write_file path content w)) = console w /\
  trace (snd (write_file path content w)) = trace w /\
  (forall p, p <> path -> files (snd (write_file path content w)) p = files w p) /\
  (media w path = NoOpen -> snd (write_file path content w) = w) /\
  (forall k, media w path = Takes (Some k) ->
             files (snd (write_file path content w)) path = Some (firstn k content)).
Proof.
  unfold write_file. destruct (media w path) as [|[k|]]; cbn [takes]; intros H.
  - cbn. repeat split; try reflexivity; discriminate.
  - rewrite H. cbn. repeat split; try reflexivity.
    + intros p Hp. apply String.eqb_neq in Hp. now rewrite Hp.
    + discriminate.
    + intros k' E. inversion E; subst. now rewrite String.eqb_refl.
  - discriminate.
Qed.

(** ** The whole run *)

Section Whole.

Variable os_walk : string -> list (string * list string).
Variable image : Type.
Variable Image_open : string -> option image.
Variable phash : image -> option fingerprint.
Variable clock : nat -> float.

Variable image_directory : string.
Variable similarity_threshold : pyfloat.
Variable output_csv : string.
Variable verbose use_light_model : bool.
Variable batch_size : Z.

Local Abbreviation image_files := (get_image_files os_walk image_directory).
Local Abbreviation N := (List.length image_files).
Local Abbreviation sc := (score Image_open phash image_files).
Local Abbreviation qual := (qualifies Image_open phash similarity_threshold image_files).
Local Abbreviation run :=
  (generate_similarity_groups os_walk Image_open phash clock image_directory
     similarity_threshold output_csv verbose use_light_model batch_size).

Lemma generate_ok (w : world) :
  rows_ok Image_open phash image_files (range 0 N) = true ->
  takes (media w output_csv)
        (S (List.length (report_rows (grouping Image_open phash similarity_threshold
                                               image_files)))) = true ->
  fst (run w) = Ok tt /\
  trace (snd (run w)) = trace w ++ run_events qual sc N /\
  forall p,
    files (snd (run w)) p =
    if String.eqb p output_csv
    then Some (header :: report_rows (grouping Image_open phash similarity_threshold image_files))
    else files w p.
Proof.
  intros R W. unfold generate_similarity_groups, bind.
  set (w0 := snd (when verbose (print Generating) w)).
  assert (E0 : when verbose (print Generating) w = (Ok tt, w0))
    by (unfold w0; now destruct verbose).
  assert (T0 : trace w0 = trace w) by (unfold w0; now destruct verbose).
  assert (F0 : files w0 = files w) by (unfold w0; now destruct verbose).
  assert (M0 : media w0 = media w) by (unfold w0; now destruct verbose).
  rewrite E0.
  destruct (comparison_loops_ok Image_open phash clock similarity_threshold verbose
              image_files w0 R) as (I1 & I2 & I3).
  pose proof (comparison_loops_media Image_open phash clock similarity_threshold verbose
                image_files w0) as I4.
  destruct (comparison_loops _ _ _ _ _ _ w0) as [[gs|e] w1]; cbn in I1, I2, I3, I4;
    [|discriminate].
  inversion I1; subst gs.
  rewrite write_file_ok by (rewrite I4, M0; exact W).
  destruct verbose; cbn; rewrite I2, I3, T0, F0; auto.
Qed.

(** The comparisons went through and the report cannot be written in full. *)
Lemma generate_unwritable (w : world) :
  rows_ok Image_open phash image_files (range 0 N) = true ->
  takes (media w output_csv)
        (S (List.length (report_rows (grouping Image_open phash similarity_threshold
                                               image_files)))) = false ->
  fst (run w) = Raise (OSError output_csv) /\
  trace (snd (run w)) = trace w ++ run_events qual sc N /\
  (forall p, p <> output_csv -> files (snd (run w)) p = files w p) /\
  (media w output_csv = NoOpen -> files (snd (run w)) = files w) /\
  (forall k, media w output_csv = Takes (Some k) ->
             files (snd (run w)) output_csv
             = Some (firstn k (header :: report_rows
                                          (grouping Image_open phash similarity_threshold
                                                    image_files)))).
Proof.
  intros R W. unfold generate_similarity_groups, bind.
  set (w0 := snd (when verbose (print Generating) w)).
  assert (E0 : when verbose (print Generating) w = (Ok tt, w0))
    by (unfold w0; now destruct verbose).
  assert (T0 : trace w0 = trace w) by (unfold w0; now destruct verbose).
  assert (F0 : files w0 = files w) by (unfold w0; now destruct verbose).
  assert (M0 : media w0 = media w) by (unfold w0; now destruct verbose).
  rewrite E0.
  destruct (comparison_loops_ok Image_open phash clock similarity_threshold verbose
              image_files w0 R) as (I1 & I2 & I3).
  pose proof (comparison_loops_media Image_open phash clock similarity_threshold verbose
                image_files w0) as I4.
  destruct (comparison_loops _ _ _ _ _ _ w0) as [[gs|e] w1]; cbn in I1, I2, I3, I4;
    [|discriminate].
  inversion I1; subst gs.
  destruct (write_file_fails output_csv
              (header :: report_rows (grouping Image_open phash similarity_threshold
                                               image_files)) w1)
    as (J1 & _ & J3 & J4 & J5 & J6); [rewrite I4, M0; exact W|].
  destruct (write_file _ _ w1) as [[u|e] w2]; cbn in J1, J3, J4, J5, J6; [discriminate|].
  inversion J1; subst e. cbn [fst snd].
  split; [reflexivity|]. split; [now rewrite J3, I2, T0|]. split; [|split].
  - intros p Hp. now rewrite J4, I3, F0.
  - intros Hn. rewrite J5 by (rewrite I4, M0; exact Hn). now rewrite I3, F0.
  - intros k Hk. apply J6. rewrite I4, M0. exact Hk.
Qed.

Lemma generate_raise (w : world) :
  rows_ok Image_open phash image_files (range 0 N) = false ->
  exists is1 i is2 js1 j js2 e,
    range 0 N = is1 ++ i :: is2 /\
    rows_ok Image_open phash image_files is1 = true /\
    range (i + 1) N = js1 ++ j :: js2 /\
    row_ok Image_open phash image_files i js1 = true /\
    similarity Image_open phash (nth i image_files "") (nth j image_files "") = Raise e /\
    fst (run w) = Raise e /\
    trace (snd (run w)) = trace w ++ flat_map (row_events qual sc N) is1
                                  ++ flat_map (pair_events qual sc i) js1
                                  ++ [Compared i j] /\
    files (snd (run w)) = files w.
Proof.
  intros R. unfold generate_similarity_groups, bind.
  set (w0 := snd (when verbose (print Generating) w)).
  assert (E0 : when verbose (print Generating) w = (Ok tt, w0))
    by (unfold w0; now destruct verbose).
  assert (T0 : trace w0 = trace w) by (unfold w0; now destruct verbose).
  assert (F0 : files w0 = files w) by (unfold w0; now destruct verbose).
  rewrite E0.
  destruct (comparison_loops_raise Image_open phash clock similarity_threshold verbose
              image_files w0 R)
    as (is1 & i & is2 & js1 & j & js2 & e & Eis & Ris & Ejs & Rjs & E & I1 & I2 & I3).
  exists is1, i, is2, js1, j, js2, e.
  destruct (comparison_loops _ _ _ _ _ _ w0) as [[gs|e'] w1]; cbn in I1, I2, I3;
    [discriminate|].
  inversion I1; subst e'. cbn. rewrite I2, I3, T0, F0. repeat split; assumption.
Qed.

End Whole.

(** ** The dictionary operations *)

Unset Implicit Arguments.

Arguments group_label : simpl never.
Arguments labelled : simpl never.

Lemma has_key_labelled (n : nat) (gs : list (nat * list entry)) :
  has_key (group_label n) (labelled gs) = existsb (fun g => Nat.eqb (fst g) n) gs.
Proof.
  unfold has_key, labelled. induction gs as [|[k v] gs IH]; cbn; [reflexivity|].
  now rewrite group_label_eqb, IH.
Qed.

Lemma existsb_label_in (n : nat) (gs : list (nat * list entry)) :
  existsb (fun g => Nat.eqb (fst g) n) gs = true <-> In n (map fst gs).
Proof.
  rewrite existsb_exists, in_map_iff. split; intros [g [H1 H2]]; exists g.
  - apply Nat.eqb_eq in H2. auto.
  - rewrite H1, Nat.eqb_refl. auto.
Qed.

Lemma set_empty_new (key : string) (d : groups) :
  has_key key d = false -> set_empty key d = d ++ [(key, [])].
Proof.
  unfold has_key. induction d as [|[k v] d IH]; cbn; [reflexivity|].
  intros H. apply orb_false_elim in H as [H1 H2]. now rewrite H1, IH.
Qed.

Lemma append_to_last (key : string) (e : entry) (v : list entry) (d : groups) :
  has_key key d = false -> append_to key e (d ++ [(key, v)]) = d ++ [(key, v ++ [e])].
Proof.
  unfold has_key. induction d as [|[k u] d IH]; cbn.
  - now rewrite String.eqb_refl.
  - intros H. apply orb_false_elim in H as [H1 H2]. now rewrite H1, IH.
Qed.

Lemma append_to_labelled (n : nat) (e : entry) (gs : list (nat * list entry)) :
  append_to (group_label n) e (labelled gs) = labelled (append_group n [e] gs).
Proof.
  unfold labelled. induction gs as [|[k v] gs IH]; cbn; [reflexivity|].
  rewrite group_label_eqb. destruct (Nat.eqb k n); cbn; [reflexivity | now rewrite IH].
Qed.

Lemma append_group_twice (n : nat) (a b : list entry) (gs : list (nat * list entry)) :
  append_group n b (append_group n a gs) = append_group n (a ++ b) gs.
Proof.
  induction gs as [|[k v] gs IH]; cbn; [reflexivity|].
  destruct (Nat.eqb k n) eqn:E; cbn; rewrite E.
  - now rewrite app_assoc.
  - now rewrite IH.
Qed.

Lemma append_group_last (n : nat) (es v : list entry) (gs : list (nat * list entry)) :
  ~ In n (map fst gs) -> append_group n es (gs ++ [(n, v)]) = gs ++ [(n, v ++ es)].
Proof.
  induction gs as [|[k u] gs IH]; cbn.
  - now rewrite Nat.eqb_refl.
  - intros H. destruct (Nat.eqb_spec k n) as [->|D]; [tauto|]. rewrite IH; tauto.
Qed.

Lemma append_group_labels (n : nat) (es : list entry) (gs : list (nat * list entry)) :
  map fst (append_group n es gs) = map fst gs.
Proof.
  induction gs as [|[k v] gs IH]; cbn; [reflexivity|].
  destruct (Nat.eqb k n); cbn; [reflexivity | now rewrite IH].
Qed.

Lemma append_group_length (n : nat) (es : list entry) (gs : list (nat * list entry)) :
  List.length (append_group n es gs) = List.length gs.
Proof.
  rewrite <- (length_map fst), append_group_labels. apply length_map.
Qed.

Lemma labelled_app (a b : list (nat * list entry)) :
  labelled (a ++ b) = labelled a ++ labelled b.
Proof. apply map_app. Qed.

Lemma labelled_length (gs : list (nat * list entry)) :
  List.length (labelled gs) = List.length gs.
Proof. apply length_map. Qed.

Lemma labels_ok_fresh (gs : list (nat * list entry)) :
  labels_ok gs -> ~ In (List.length gs + 1) (map fst gs).
Proof. unfold labels_ok. intros ->. rewrite in_seq. lia. Qed.

Lemma labels_ok_snoc (gs : list (nat * list entry)) (es : list entry) :
  labels_ok gs -> labels_ok (gs ++ [(List.length gs + 1, es)]).
Proof.
  unfold labels_ok. intros H.
  rewrite map_app, length_app, H. cbn [map fst List.length].
  rewrite Nat.add_1_r, seq_S. cbn. reflexivity.
Qed.

(** ** The grouping pass, the engine and the closed form *)

Section Grouping.

Variable image : Type.
Variable Image_open : string -> option image.
Variable phash : image -> option fingerprint.
Variable similarity_threshold : pyfloat.
Variable image_files : list string.

Local Abbreviation N := (List.length image_files).
Local Abbreviation qual := (qualifies Image_open phash similarity_threshold image_files).
Local Abbreviation pent := (pair_entries Image_open phash image_files).
Local Abbreviation gstep := (group_step Image_open phash image_files).
Local Abbreviation pstep := (pair_step Image_open phash similarity_threshold image_files).
Local Abbreviation rstep := (row_step Image_open phash similarity_threshold image_files).
Local Abbreviation edge := (on_edge Image_open phash image_files).
Local Abbreviation epair := (engine_pair Image_open phash similarity_threshold image_files).
Local Abbreviation erow := (engine_row Image_open phash similarity_threshold image_files).
Local Abbreviation rent := (row_entries Image_open phash similarity_threshold image_files).
Local Abbreviation ents := (entries_of Image_open phash similarity_threshold image_files).

Lemma on_edge_wf (i j : nat) (e : engine) : engine_wf e -> engine_wf (edge i j e).
Proof.
  destruct e as [[|n] gs]; unfold engine_wf, on_edge; cbn [fst snd]; intros [L W].
  - split; [now apply labels_ok_snoc|].
    rewrite map_app, in_app_iff. right. cbn. auto.
  - unfold labels_ok in *. rewrite append_group_labels, append_group_length. auto.
Qed.

Lemma group_step_refines (i j : nat) (st : option string * groups) (e : engine) :
  engine_wf e -> refines st e -> refines (gstep i j st) (edge i j e).
Proof.
  destruct st as [sg gs], e as [s egs]. intros [L W] [R1 R2]. cbn in L, W, R1, R2. subst sg gs.
  destruct s as [|n]; unfold group_step, on_edge, refines; cbn [fst snd state_label].
  - rewrite labelled_length.
    assert (K : has_key (group_label (List.length egs + 1)) (labelled egs) = false).
    { rewrite has_key_labelled.
      destruct (existsb _ egs) eqn:E; [|reflexivity].
      apply existsb_label_in in E. now apply labels_ok_fresh in E. }
    rewrite K, set_empty_new by exact K. rewrite !append_to_last by exact K.
    split; [reflexivity|]. now rewrite labelled_app.
  - assert (K : has_key (group_label n) (labelled egs) = true).
    { rewrite has_key_labelled. now apply existsb_label_in. }
    rewrite K, !append_to_labelled, append_group_twice. split; reflexivity.
Qed.

Lemma pairs_refine (i : nat) (js : list nat) (st : option string * groups) (e : engine) :
  engine_wf e -> refines st e ->
  refines (fold_left (pstep i) js st) (fold_left (epair i) js e) /\
  engine_wf (fold_left (epair i) js e).
Proof.
  revert st e. induction js as [|j js IH]; intros st e W R; cbn [fold_left].
  - auto.
  - unfold pair_step at 2, engine_pair at 2 4. destruct (qual i j).
    + apply IH; [now apply on_edge_wf | now apply group_step_refines].
    + now apply IH.
Qed.

Lemma row_refines (i : nat) (gs : groups) (e : engine) :
  fst e = StateA -> engine_wf e -> gs = labelled (snd e) ->
  rstep gs i = labelled (snd (erow e i)) /\ engine_wf (erow e i) /\ fst (erow e i) = StateA.
Proof.
  intros A W ->. unfold row_step, engine_row, on_exhausted.
  destruct (@pairs_refine i (range (i + 1) N) (None, labelled (snd e)) e W) as [[_ R] [L _]].
  { split; cbn; [now rewrite A | reflexivity]. }
  cbn [fst snd]. repeat split; auto.
Qed.

Lemma rows_refine (anchors : list nat) (gs : groups) (e : engine) :
  fst e = StateA -> engine_wf e -> gs = labelled (snd e) ->
  fold_left rstep anchors gs = labelled (snd (fold_left erow anchors e)).
Proof.
  revert gs e. induction anchors as [|i anchors IH]; intros gs e A W E; cbn [fold_left].
  - exact E.
  - destruct (@row_refines i gs e A W E) as (E' & W' & A'). now apply IH.
Qed.

(** The dictionary of the loops is the engine's list of groups, labelled. *)
Lemma grouping_engine :
  grouping Image_open phash similarity_threshold image_files =
  labelled (snd (engine_run Image_open phash similarity_threshold image_files)).
Proof.
  unfold grouping, engine_run. apply rows_refine; [reflexivity | | reflexivity].
  split; cbn; [reflexivity | exact I].
Qed.

(** *** The engine in closed form *)

Lemma engine_pairs_open (i : nat) (js : list nat) (n : nat)
      (gs : list (nat * list entry)) (es : list entry) :
  ~ In n (map fst gs) ->
  fold_left (epair i) js (StateB n, gs ++ [(n, es)]) =
  (StateB n, gs ++ [(n, es ++ ents i js)]).
Proof.
  intros F. revert es. induction js as [|j js IH]; intros es; cbn [fold_left].
  - cbn. now rewrite app_nil_r.
  - unfold engine_pair at 2, entries_of. cbn [flat_map]. fold (ents i js).
    destruct (qual i j).
    + unfold on_edge. cbn [fst snd]. rewrite (append_group_last _ _ _ _ F), IH.
      now rewrite <- app_assoc.
    + apply IH.
Qed.

Lemma engine_pairs_closed (i : nat) (js : list nat) (gs : list (nat * list entry)) :
  labels_ok gs ->
  fold_left (epair i) js (StateA, gs) =
  match ents i js with
  | [] => (StateA, gs)
  | es => (StateB (List.length gs + 1), gs ++ [(List.length gs + 1, es)])
  end.
Proof.
  intros L. induction js as [|j js IH]; cbn [fold_left].
  - reflexivity.
  - unfold engine_pair at 2, entries_of. cbn [flat_map]. fold (ents i js).
    destruct (qual i j).
    + unfold on_edge. cbn [fst snd].
      rewrite engine_pairs_open by now apply labels_ok_fresh.
      reflexivity.
    + exact IH.
Qed.

Lemma engine_row_closed (i : nat) (gs : list (nat * list entry)) :
  labels_ok gs ->
  erow (StateA, gs) i =
  (StateA, match rent i with
           | [] => gs
           | es => gs ++ [(List.length gs + 1, es)]
           end).
Proof.
  intros L. unfold engine_row. rewrite (engine_pairs_closed _ _ _ L).
  unfold row_entries. fold (ents i (range (i + 1) N)).
  now destruct (ents i (range (i + 1) N)).
Qed.

Lemma engine_rows_closed (anchors : list nat) (gs : list (nat * list entry)) :
  labels_ok gs ->
  fold_left erow anchors (StateA, gs) =
  (StateA,
   gs ++ map strip (number_from (List.length gs + 1) (map (fun i => (i, rent i)) anchors))).
Proof.
  revert gs. induction anchors as [|i anchors IH]; intros gs L; cbn [fold_left map].
  - cbn. now rewrite app_nil_r.
  - rewrite (engine_row_closed _ _ L). cbn [number_from].
    destruct (rent i) as [|e es] eqn:E.
    + now apply IH.
    + rewrite IH by now apply labels_ok_snoc.
      rewrite length_app. cbn [List.length map strip fst snd].
      rewrite <- app_assoc. cbn [app].
      replace (List.length gs + 1 + 1) with (S (List.length gs + 1)) by lia.
      reflexivity.
Qed.

(** The groups of a run that raises nothing, in closed form. *)
Lemma grouping_closed :
  grouping Image_open phash similarity_threshold image_files =
  labelled (map strip (anchored_groups Image_open phash similarity_threshold image_files)).
Proof.
  rewrite grouping_engine. unfold engine_run, anchored_groups.
  rewrite engine_rows_closed by reflexivity. reflexivity.
Qed.

End Grouping.

(** Membership in a numbering. *)
Lemma number_from_sound (k : nat) (rows : list (nat * list entry))
      (n i : nat) (es : list entry) :
  In (n, (i, es)) (number_from k rows) -> In (i, es) rows /\ es <> [] /\ k <= n.
Proof.
  revert k. induction rows as [|[i' [|e es']] rows IH]; intros k; cbn.
  - tauto.
  - intros H. destruct (IH _ H) as (H1 & H2 & H3). auto.
  - intros [H|H].
    + inversion H; subst. repeat split; [now left | discriminate | lia].
    + destruct (IH _ H) as (H1 & H2 & H3). repeat split; [now right | assumption | lia].
Qed.

Lemma number_from_complete (k : nat) (rows : list (nat * list entry))
      (i : nat) (es : list entry) :
  In (i, es) rows -> es <> [] -> exists n, In (n, (i, es)) (number_from k rows).
Proof.
  revert k. induction rows as [|[i' [|e es']] rows IH]; intros k; cbn.
  - tauto.
  - intros [H|H] Hne.
    + inversion H; subst. congruence.
    + now apply IH.
  - intros [H|H] Hne.
    + inversion H; subst. exists k. now left.
    + destruct (IH (S k) H Hne) as [n Hn]. exists n. now right.
Qed.

(** ** Pairs in row-major order *)

Lemma in_range (a b x : nat) : In x (range a b) <-> a <= x < b.
Proof. unfold range. rewrite in_seq. lia. Qed.

Lemma in_all_pairs (n i j : nat) : In (i, j) (all_pairs n) <-> i < j < n.
Proof.
  unfold all_pairs. rewrite in_flat_map. split.
  - intros (a & Ha & H). apply in_map_iff in H as (b & E & Hb).
    inversion E; subst. apply in_range in Hb. lia.
  - intros H. exists i. split.
    + apply in_range. lia.
    + apply in_map_iff. exists j. split; [reflexivity|]. apply in_range. lia.
Qed.

Lemma NoDup_row (i a b : nat) : NoDup (map (pair i) (range a b)).
Proof.
  unfold range. generalize (b - a). intros n. revert a.
  induction n as [|n IH]; intros a; cbn; constructor.
  - rewrite in_map_iff. intros (x & E & H). inversion E; subst.
    apply in_seq in H. lia.
  - apply IH.
Qed.

Lemma NoDup_rows (n a m : nat) :
  NoDup (flat_map (fun i => map (pair i) (range (i + 1) n)) (seq a m)).
Proof.
  revert a. induction m as [|m IH]; intros a; cbn; [constructor|].
  apply NoDup_app; [apply NoDup_row | apply IH |].
  intros [i j] H1 H2. apply in_map_iff in H1 as (x & E & _). inversion E; subst.
  apply in_flat_map in H2 as (i' & Hi & H). apply in_seq in Hi.
  apply in_map_iff in H as (y & E' & _). inversion E'. lia.
Qed.

Lemma NoDup_all_pairs (n : nat) : NoDup (all_pairs n).
Proof. unfold all_pairs, range at 2. apply NoDup_rows. Qed.

Lemma length_rows (n a m : nat) :
  a + m = n ->
  2 * List.length (flat_map (fun i => map (pair i) (range (i + 1) n)) (seq a m)) = m * (m - 1).
Proof.
  revert a. induction m as [|m IH]; intros a E; cbn [seq flat_map]; [reflexivity|].
  rewrite length_app, length_map. unfold range at 1. rewrite length_seq.
  specialize (IH (S a) ltac:(lia)). nia.
Qed.

Lemma length_all_pairs (n : nat) : List.length (all_pairs n) = n * (n - 1) / 2.
Proof.
  pose proof (length_rows n 0 n eq_refl) as H. unfold all_pairs, range at 2.
  rewrite Nat.sub_0_r. apply Nat.div_unique_exact; lia.
Qed.

(** ** Reading the events of a run *)

Section Events.

Variable qual : nat -> nat -> bool.
Variable sc : nat -> nat -> Q.

Lemma compared_pair_events (i : nat) (js : list nat) :
  compared_pairs (flat_map (pair_events qual sc i) js) = map (pair i) js.
Proof.
  unfold compared_pairs. induction js as [|j js IH]; cbn [flat_map map]; [reflexivity|].
  rewrite flat_map_app, IH. unfold pair_events. now destruct (qual i j).
Qed.

Lemma qualified_pair_events (i : nat) (js : list nat) :
  qualified_pairs (flat_map (pair_events qual sc i) js) = map (pair i) (filter (qual i) js).
Proof.
  unfold qualified_pairs. induction js as [|j js IH]; cbn [flat_map map filter]; [reflexivity|].
  rewrite flat_map_app, IH. unfold pair_events. now destruct (qual i j).
Qed.

Lemma progress_pair_events (i : nat) (js : list nat) :
  progress_steps (flat_map (pair_events qual sc i) js) = [].
Proof.
  unfold progress_steps. induction js as [|j js IH]; cbn [flat_map]; [reflexivity|].
  rewrite flat_map_app, IH. unfold pair_events. now destruct (qual i j).
Qed.

Lemma compared_rows (n : nat) (anchors : list nat) :
  compared_pairs (flat_map (row_events qual sc n) anchors) =
  flat_map (fun i => map (pair i) (range (i + 1) n)) anchors.
Proof.
  induction anchors as [|i anchors IH]; cbn [flat_map]; [reflexivity|].
  unfold compared_pairs in *. rewrite flat_map_app, IH. unfold row_events.
  rewrite flat_map_app. fold (compared_pairs (flat_map (pair_events qual sc i) (range (i + 1) n))).
  rewrite compared_pair_events. cbn. now rewrite app_nil_r.
Qed.

Lemma qualified_rows (n : nat) (anchors : list nat) :
  qualified_pairs (flat_map (row_events qual sc n) anchors) =
  flat_map (fun i => map (pair i) (filter (qual i) (range (i + 1) n))) anchors.
Proof.
  induction anchors as [|i anchors IH]; cbn [flat_map]; [reflexivity|].
  unfold qualified_pairs in *. rewrite flat_map_app, IH. unfold row_events.
  rewrite flat_map_app. fold (qualified_pairs (flat_map (pair_events qual sc i) (range (i + 1) n))).
  rewrite qualified_pair_events. cbn. now rewrite app_nil_r.
Qed.

Lemma progress_rows (n : nat) (anchors : list nat) :
  progress_steps (flat_map (row_events qual sc n) anchors) = map S anchors.
Proof.
  induction anchors as [|i anchors IH]; cbn [flat_map map]; [reflexivity|].
  unfold progress_steps in *. rewrite flat_map_app, IH. unfold row_events.
  rewrite flat_map_app. fold (progress_steps (flat_map (pair_events qual sc i) (range (i + 1) n))).
  rewrite progress_pair_events. cbn. now rewrite Nat.add_1_r.
Qed.

Lemma filter_rows (anchors : list nat) (n : nat) :
  filter (fun p => qual (fst p) (snd p))
         (flat_map (fun i => map (pair i) (range (i + 1) n)) anchors) =
  flat_map (fun i => map (pair i) (filter (qual i) (range (i + 1) n))) anchors.
Proof.
  induction anchors as [|i anchors IH]; cbn [flat_map filter]; [reflexivity|].
  rewrite filter_app, IH. f_equal.
  generalize (range (i + 1) n). intros js.
  induction js as [|j js IHj]; cbn; [reflexivity|].
  destruct (qual i j); cbn; now rewrite IHj.
Qed.

Lemma compared_run_events (n : nat) : compared_pairs (run_events qual sc n) = all_pairs n.
Proof. apply compared_rows. Qed.

Lemma qualified_run_events (n : nat) :
  qualified_pairs (run_events qual sc n) =
  filter (fun p => qual (fst p) (snd p)) (all_pairs n).
Proof. unfold run_events, all_pairs. now rewrite qualified_rows, filter_rows. Qed.

Lemma progress_run_events (n : nat) : progress_steps (run_events qual sc n) = seq 1 n.
Proof.
  unfold run_events. rewrite progress_rows, range_0. apply seq_shift.
Qed.

End Events.

(** ** When a run raises *)

Section Decoding.

Variable image : Type.
Variable Image_open : string -> option image.
Variable phash : image -> option fingerprint.
Variable clock : nat -> float.
Variable similarity_threshold : pyfloat.
Variable verbose : bool.
Variable image_files : list string.

Local Abbreviation N := (List.length image_files).
Local Abbreviation dec := (decodable Image_open phash).
Local Abbreviation rs_ok := (rows_ok Image_open phash image_files).
Local Abbreviation loops :=
  (comparison_loops Image_open phash clock similarity_threshold verbose image_files).

Lemma rows_ok_all (anchors : list nat) :
  (forall p, In p image_files -> dec p = true) -> rs_ok anchors = true.
Proof.
  intros D. unfold rows_ok, row_ok. apply forallb_forall. intros i _.
  apply forallb_forall. intros j Hj. apply in_range in Hj.
  apply andb_true_intro. split; apply D; apply nth_In; lia.
Qed.

Lemma rows_ok_undecodable (p : string) :
  In p image_files -> dec p = false -> 2 <= N -> rs_ok (range 0 N) = false.
Proof.
  intros Hp Dp HN. destruct (rs_ok (range 0 N)) eqn:R; [|reflexivity]. exfalso.
  unfold rows_ok in R. rewrite forallb_forall in R.
  specialize (R 0 ltac:(apply in_range; lia)). unfold row_ok in R.
  rewrite forallb_forall in R.
  destruct (In_nth _ _ "" Hp) as (k & Hk & Ek).
  destruct k as [|k].
  - specialize (R 1 ltac:(apply in_range; lia)).
    apply andb_prop in R as [R _]. rewrite Ek in R. congruence.
  - specialize (R (S k) ltac:(apply in_range; lia)).
    apply andb_prop in R as [_ R]. rewrite Ek in R. congruence.
Qed.

Lemma comparison_loops_returns (w : world) (gs : groups) :
  fst (loops w) = Ok gs ->
  rs_ok (range 0 N) = true /\
  gs = grouping Image_open phash similarity_threshold image_files.
Proof.
  intros H. destruct (rs_ok (range 0 N)) eqn:R.
  - destruct (comparison_loops_ok Image_open phash clock similarity_threshold verbose
                image_files w R) as (I1 & _).
    rewrite I1 in H. inversion H. auto.
  - destruct (comparison_loops_raise Image_open phash clock similarity_threshold verbose
                image_files w R) as (? & ? & ? & ? & ? & ? & e & _ & _ & _ & _ & _ & I1 & _).
    rewrite I1 in H. discriminate.
Qed.

Lemma raised_is_listed (i j : nat) (is1 is2 js1 js2 : list nat) (e : exn) :
  range 0 N = is1 ++ i :: is2 -> range (i + 1) N = js1 ++ j :: js2 ->
  similarity Image_open phash (nth i image_files "") (nth j image_files "") = Raise e ->
  exists p, e = ImageDecodeError p /\ In p image_files /\ dec p = false /\
            (p = nth i image_files "" \/ p = nth j image_files "") /\ i < j < N.
Proof.
  intros Ei Ej E.
  assert (Hi : In i (range 0 N)) by (rewrite Ei; apply in_elt).
  assert (Hj : In j (range (i + 1) N)) by (rewrite Ej; apply in_elt).
  apply in_range in Hi, Hj.
  apply similarity_raise in E as (p & -> & [->| ->] & D);
    eexists; repeat split; eauto; try lia; apply nth_In; lia.
Qed.

End Decoding.

(** ** The Distance Normalizer *)

Lemma hash_sub_eq_0 (h1 h2 : fingerprint) :
  List.length h1 = List.length h2 -> (hash_sub h1 h2 = 0 <-> h1 = h2).
Proof.
  revert h2. induction h1 as [|b h1 IH]; intros [|c h2]; cbn; try discriminate.
  - tauto.
  - intros E. injection E as E. specialize (IH h2 E).
    destruct b, c; cbn; split; intros H; try discriminate.
    + f_equal. now apply (proj1 IH).
    + injection H as H. now apply (proj2 IH).
    + f_equal. now apply (proj1 IH).
    + injection H as H. now apply (proj2 IH).
Qed.

(** The normalizer on fingerprints of any bit length [L]: the code divides
    by the constant 256, so the score is raw/256, at least 0, at most 1 as
    soon as [L <= 256], and 0 exactly for equal fingerprints; a maximal
    distance [raw = L] gives [L/256], and the score is 1 only for
    [raw = 256]. *)
Lemma normalize_by_256 (L : nat) (h1 h2 : fingerprint) :
  List.length h1 = L -> List.length h2 = L ->
  (normalize (hash_sub h1 h2) == inject_Z (Z.of_nat (hash_sub h1 h2)) / 256)%Q /\
  (0 <= normalize (hash_sub h1 h2))%Q /\
  (L <= 256 -> (normalize (hash_sub h1 h2) <= 1)%Q) /\
  ((normalize (hash_sub h1 h2) == 0)%Q <-> h1 = h2) /\
  (hash_sub h1 h2 = L -> (normalize (hash_sub h1 h2) == inject_Z (Z.of_nat L) / 256)%Q) /\
  ((normalize (hash_sub h1 h2) == 1)%Q <-> hash_sub h1 h2 = 256).
Proof.
  intros E1 E2. repeat split.
  - apply normalize_quotient.
  - apply normalize_nonneg.
  - intros HL. apply normalize_le_1. pose proof (hash_sub_le h1 h2). lia.
  - intros H. apply normalize_eq_0 in H. apply hash_sub_eq_0; congruence.
  - intros H. apply normalize_eq_0. apply hash_sub_eq_0; congruence.
  - intros ->. apply normalize_quotient.
  - apply normalize_eq_1.
  - apply normalize_eq_1.
Qed.

(** C2.  The code on 64-bit fingerprints, the size of the perceptual hash
    that line 12 computes: two fingerprints that differ in 32 bits score
    32/256 = 1/8 and not raw/L = 32/64, and two that differ in every bit,
    the maximal distance [raw = L = 64], score 1/4 and not 1. *)
Theorem normalize_64_bit_fingerprints :
  List.length Album.zeros = 64 /\ List.length Album.half = 64 /\
  List.length Album.ones = 64 /\
  hash_sub Album.zeros Album.half = 32 /\
  (normalize (hash_sub Album.zeros Album.half) == 1 # 8)%Q /\
  ~ (normalize (hash_sub Album.zeros Album.half) == inject_Z 32 / inject_Z 64)%Q /\
  hash_sub Album.zeros Album.ones = 64 /\
  (normalize (hash_sub Album.zeros Album.ones) == 1 # 4)%Q /\
  ~ (normalize (hash_sub Album.zeros Album.ones) == inject_Z 64 / inject_Z 64)%Q /\
  ~ (normalize (hash_sub Album.zeros Album.ones) == 1)%Q.
Proof.
  repeat split; try reflexivity; vm_compute; discriminate.
Qed.

(** ** The Progress Reporter *)

Section Reporter.

Variable os_walk : string -> list (string * list string).
Variable image : Type.
Variable Image_open : string -> option image.
Variable phash : image -> option fingerprint.
Variable clock : nat -> float.
Variable similarity_threshold : pyfloat.
Variable verbose : bool.

Lemma pair_lines_extrapolated (image_files : list string) (i : nat) (js : list nat) :
  Forall extrapolated
         (flat_map (pair_lines Image_open phash verbose image_files i) js).
Proof.
  induction js as [|j js IH]; cbn; [constructor|].
  apply Forall_app. split; [|exact IH].
  unfold pair_lines. destruct verbose; repeat constructor.
Qed.

Lemma outer_body_console (image_files : list string) (start_time : float) (i : nat)
      (st : groups * nat) (w : world) :
  Forall extrapolated (console w) ->
  Forall extrapolated
    (console (snd (outer_body Image_open phash clock similarity_threshold verbose
                              image_files start_time i st w))).
Proof.
  intros H. destruct st as [gs progress].
  destruct (row_ok Image_open phash image_files i
                   (range (i + 1) (List.length image_files))) eqn:R.
  - rewrite (outer_body_ok _ _ clock similarity_threshold verbose _ start_time _ progress gs w R).
    cbn [snd console]. rewrite !Forall_app. repeat split.
    + exact H.
    + apply pair_lines_extrapolated.
    + unfold progress_lines. destruct verbose; [|constructor].
      constructor; [|constructor]. split; [lia | reflexivity].
  - destruct (outer_body_raise _ _ clock similarity_threshold verbose _ start_time _
                progress gs w R) as (js1 & j & js2 & e & _ & _ & _ & Run).
    rewrite Run. cbn [snd log console]. rewrite Forall_app. split.
    + exact H.
    + apply pair_lines_extrapolated.
Qed.

Lemma comparison_loops_console (image_files : list string) (w : world) :
  Forall extrapolated (console w) ->
  Forall extrapolated
    (console (snd (comparison_loops Image_open phash clock similarity_threshold verbose
                                    image_files w))).
Proof.
  intros H. unfold comparison_loops, bind, time_time.
  pose proof (for_each_world (fun w => Forall extrapolated (console w))
                (outer_body Image_open phash clock similarity_threshold verbose
                            image_files (clock (clock_reads w)))
                (fun x s w' => outer_body_console image_files _ x s w')
                (range 0 (List.length image_files)) ([], 0)
                (World (console w) (S (clock_reads w)) (files w) (trace w) (media w)) H) as K.
  destruct (for_each _ _ _ _) as [[st|e] w']; exact K.
Qed.

Lemma generate_console (image_directory output_csv : string) (use_light_model : bool)
      (batch_size : Z) (w : world) :
  Forall extrapolated (console w) ->
  Forall extrapolated
    (console (snd (generate_similarity_groups os_walk Image_open phash clock
                     image_directory similarity_threshold output_csv verbose
                     use_light_model batch_size w))).
Proof.
  intros H. unfold generate_similarity_groups, bind.
  set (w0 := snd (when verbose (print Generating) w)).
  assert (E0 : when verbose (print Generating) w = (Ok tt, w0))
    by (unfold w0; now destruct verbose).
  assert (H0 : Forall extrapolated (console w0)).
  { unfold w0. destruct verbose; cbn; [|exact H].
    apply Forall_app. split; [exact H | repeat constructor]. }
  rewrite E0.
  pose proof (comparison_loops_console (get_image_files os_walk image_directory) w0 H0) as K.
  destruct (comparison_loops _ _ _ _ _ _ w0) as [[gs|e] w1]; cbn in K; [|exact K].
  pose proof (write_file_console output_csv (header :: report_rows gs) w1) as C.
  destruct (write_file _ _ w1) as [[u|e] w2]; cbn in C |- *; [|now rewrite C].
  destruct verbose; cbn; rewrite C; [|exact K].
  apply Forall_app. split; [exact K | repeat constructor].
Qed.

Lemma generate_never_divides_by_zero (image_directory output_csv : string)
      (use_light_model : bool) (batch_size : Z) (w : world) :
  fst (generate_similarity_groups os_walk Image_open phash clock
         image_directory similarity_threshold output_csv verbose
         use_light_model batch_size w) <> Raise ZeroDivisionError.
Proof.
  set (fs := get_image_files os_walk image_directory).
  destruct (rows_ok Image_open phash fs (range 0 (List.length fs))) eqn:R.
  - destruct (takes (media w output_csv)
                    (S (List.length (report_rows (grouping Image_open phash
                                                           similarity_threshold fs)))))
      eqn:W.
    + destruct (generate_ok os_walk Image_open phash clock image_directory
                  similarity_threshold output_csv verbose use_light_model batch_size w R W)
        as (I1 & _).
      rewrite I1. discriminate.
    + destruct (generate_unwritable os_walk Image_open phash clock image_directory
                  similarity_threshold output_csv verbose use_light_model batch_size w R W)
        as (I1 & _).
      rewrite I1. discriminate.
  - destruct (generate_raise os_walk Image_open phash clock image_directory
                similarity_threshold output_csv verbose use_light_model batch_size w R)
      as (is1 & i & is2 & js1 & j & js2 & e & _ & _ & _ & _ & E & I1 & _).
    rewrite I1. apply similarity_raise in E as (p & -> & _). discriminate.
Qed.

End Reporter.

(** C5.  The ETA of a progress report is the linear extrapolation
    (elapsed / completed) * total - elapsed, computed in doubles, and it is
    only ever computed for a completed count of at least 1, because the count
    is incremented before the report: every progress line a run prints has
    such a count and that ETA, while nothing is completed no ETA is reported,
    and no run raises ZeroDivisionError, although the division itself raises
    on a zero count. *)
Theorem eta_linear_extrapolation
    (os_walk : string -> list (string * list string))
    (image : Type) (Image_open : string -> option image)
    (phash : image -> option fingerprint) (clock : nat -> float)
    (image_directory : string) (similarity_threshold : pyfloat) (output_csv : string)
    (verbose use_light_model : bool) (batch_size : Z) (w : world) :
  Forall extrapolated (console w) ->
  fst (generate_similarity_groups os_walk Image_open phash clock image_directory
         similarity_threshold output_csv verbose use_light_model batch_size w)
    <> Raise ZeroDivisionError /\
  Forall extrapolated
    (console (snd (generate_similarity_groups os_walk Image_open phash clock
                     image_directory similarity_threshold output_csv verbose
                     use_light_model batch_size w))) /\
  (forall progress total_images elapsed_time eta,
      extrapolated (ProgressLine progress total_images elapsed_time eta) ->
      1 <= progress /\
      eta = (elapsed_time / float_of_nat progress * float_of_nat total_images
             - elapsed_time)%float) /\
  (forall elapsed_time, truediv elapsed_time 0 = Raise ZeroDivisionError).
Proof.
  intros H. split; [|split; [|split]].
  - apply generate_never_divides_by_zero.
  - now apply generate_console.
  - intros progress total_images elapsed_time eta E. exact E.
  - reflexivity.
Qed.

Lemma eta_linear_extrapolation_witness :
  Forall extrapolated (console Album.fresh) /\
  In (ProgressLine 3 4 3 (3 / 3 * 4 - 3)%float)
     (console (snd (generate_similarity_groups Album.os_walk Album.Image_open Album.phash
                      Album.clock "pics" (Finite (1 # 8)) "out.csv" true false 1
                      Album.fresh))) /\
  Forall extrapolated
    (console (snd (generate_similarity_groups Album.os_walk Album.Image_open Album.phash
                     Album.clock "pics" (Finite (1 # 8)) "out.csv" true false 1
                     Album.fresh))).
Proof.
  split; [constructor|]. split.
  - vm_compute. repeat (first [left; reflexivity | right]).
  - apply (eta_linear_extrapolation Album.os_walk fingerprint Album.Image_open Album.phash
             Album.clock
             "pics" (Finite (1 # 8)) "out.csv" true false 1 Album.fresh).
    constructor.
Defined.

(** ** The script and its exit status *)


Section Script.

Variable os_walk : string -> list (string * list string).
Variable image : Type.
Variable Image_open : string -> option image.
Variable phash : image -> option fingerprint.
Variable clock : nat -> float.

Lemma main_returns (a : args) (w : world) :
  fst (generate_similarity_groups os_walk Image_open phash clock
         (arg_image_directory a) (arg_similarity_threshold a) (arg_output_csv a)
         (arg_verbose a) (arg_use_light_model a) (arg_batch_size a) w) = Ok tt ->
  fst (main os_walk Image_open phash clock a w) = 0%Z.
Proof.
  unfold main. destruct (generate_similarity_groups _ _ _ _ _ _ _ _ _ _ w) as [[u|e] w'];
    cbn; [reflexivity | discriminate].
Qed.

Lemma main_raises (a : args) (w : world) (e : exn) :
  fst (generate_similarity_groups os_walk Image_open phash clock
         (arg_image_directory a) (arg_similarity_threshold a) (arg_output_csv a)
         (arg_verbose a) (arg_use_light_model a) (arg_batch_size a) w) = Raise e ->
  fst (main os_walk Image_open phash clock a w) = 1%Z.
Proof.
  unfold main. destruct (generate_similarity_groups _ _ _ _ _ _ _ _ _ _ w) as [[u|e'] w'];
    cbn; [discriminate | reflexivity].
Qed.

Lemma main_world (a : args) (w : world) :
  snd (main os_walk Image_open phash clock a w) =
  snd (generate_similarity_groups os_walk Image_open phash clock
         (arg_image_directory a) (arg_similarity_threshold a) (arg_output_csv a)
         (arg_verbose a) (arg_use_light_model a) (arg_batch_size a) w).
Proof.
  unfold main. now destruct (generate_similarity_groups _ _ _ _ _ _ _ _ _ _ w) as [[u|e'] w'].
Qed.

(** With at most one image no comparison is made and no group is built. *)
Lemma few_images (similarity_threshold : pyfloat) (image_files : list string) :
  List.length image_files <= 1 ->
  rows_ok Image_open phash image_files (range 0 (List.length image_files)) = true /\
  grouping Image_open phash similarity_threshold image_files = [] /\
  forall qual sc,
    compared_pairs (run_events qual sc (List.length image_files)) = [] /\
    qualified_pairs (run_events qual sc (List.length image_files)) = [].
Proof.
  destruct image_files as [|p [|q r]]; cbn [List.length]; intros H; try lia;
    repeat split; reflexivity.
Qed.

End Script.

(** C8.  With no image or a single image in the directory, and an output
    path that can be opened and takes one row, the run compares no pair,
    builds no group, writes a report that holds the header row only, and exits
    with status 0.  The hypothesis on the output path is needed: when the
    path cannot be opened the run raises, writes nothing, and the script
    exits with status 1. *)
Theorem header_only_report
    (os_walk : string -> list (string * list string))
    (image : Type) (Image_open : string -> option image)
    (phash : image -> option fingerprint) (clock : nat -> float)
    (a : args) (w : world) :
  List.length (get_image_files os_walk (arg_image_directory a)) <= 1 ->
  takes (media w (arg_output_csv a)) 1 = true ->
  fst (main os_walk Image_open phash clock a w) = 0%Z /\
  (exists evs,
      trace (snd (main os_walk Image_open phash clock a w)) = trace w ++ evs /\
      compared_pairs evs = [] /\ qualified_pairs evs = []) /\
  (forall w0,
      fst (comparison_loops Image_open phash clock (arg_similarity_threshold a)
             (arg_verbose a) (get_image_files os_walk (arg_image_directory a)) w0) = Ok []) /\
  header = [Str "Similarity Group"; Str "Image File"; Str "Similarity Index"] /\
  files (snd (main os_walk Image_open phash clock a w)) (arg_output_csv a) = Some [header].
Proof.
  intros H W.
  destruct (few_images _ Image_open phash (arg_similarity_threshold a) _ H) as (R & G & T).
  assert (W' : takes (media w (arg_output_csv a))
                 (S (List.length
                       (report_rows
                          (grouping Image_open phash (arg_similarity_threshold a)
                             (get_image_files os_walk (arg_image_directory a)))))) = true)
    by (rewrite G; exact W).
  destruct (generate_ok os_walk Image_open phash clock (arg_image_directory a)
              (arg_similarity_threshold a) (arg_output_csv a) (arg_verbose a)
              (arg_use_light_model a) (arg_batch_size a) w R W') as (I1 & I2 & I3).
  rewrite main_world. repeat split.
  - now apply main_returns.
  - eexists. split; [exact I2|]. apply T.
  - intros w0.
    destruct (comparison_loops_ok Image_open phash clock (arg_similarity_threshold a)
                (arg_verbose a) _ w0 R) as (J1 & _).
    now rewrite J1, G.
  - rewrite I3, String.eqb_refl, G. reflexivity.
Qed.

Lemma header_only_report_witness :
  List.length (get_image_files Album.os_walk "single") <= 1 /\
  takes (media Album.fresh "out.csv") 1 = true /\
  files (snd (main Album.os_walk Album.Image_open Album.phash Album.clock
                   (Args "single" (Finite (1 # 8)) "out.csv" true false 1) Album.fresh))
        "out.csv" = Some [header].
Proof.
  split; [vm_compute; lia|]. split; [reflexivity|].
  apply (header_only_report Album.os_walk fingerprint Album.Image_open Album.phash Album.clock
           (Args "single" (Finite (1 # 8)) "out.csv" true false 1) Album.fresh).
  - vm_compute. lia.
  - reflexivity.
Defined.

(** ** Decode failures *)




(** ** The Pairwise Comparator *)

Lemma labelled_entries (gs : list (nat * list entry)) : map snd (labelled gs) = map snd gs.
Proof. unfold labelled. rewrite map_map. reflexivity. Qed.

Lemma labelled_in (label : string) (es : list entry) (gs : list (nat * list entry)) :
  In (label, es) (labelled gs) <-> exists n, label = group_label n /\ In (n, es) gs.
Proof.
  unfold labelled. rewrite in_map_iff. split.
  - intros ([n es'] & E & H). inversion E; subst. eauto.
  - intros (n & -> & H). exists (n, es). auto.
Qed.

Lemma numbered_entries (k : nat) (rows : list (nat * list entry)) :
  List.concat (map snd (map strip (number_from k rows))) = List.concat (map snd rows).
Proof.
  revert k. induction rows as [|[i [|e es]] rows IH]; intros k; cbn.
  - reflexivity.
  - apply IH.
  - now rewrite IH.
Qed.

Lemma number_from_labels (k : nat) (rows : list (nat * list entry)) :
  map fst (map strip (number_from k rows)) =
  seq k (List.length (map strip (number_from k rows))).
Proof.
  revert k. induction rows as [|[i [|e es]] rows IH]; intros k; cbn.
  - reflexivity.
  - apply IH.
  - now rewrite IH.
Qed.

Section Comparator.

Variable image : Type.
Variable Image_open : string -> option image.
Variable phash : image -> option fingerprint.
Variable similarity_threshold : pyfloat.
Variable image_files : list string.

Local Abbreviation N := (List.length image_files).
Local Abbreviation qual := (qualifies Image_open phash similarity_threshold image_files).
Local Abbreviation pent := (pair_entries Image_open phash image_files).
Local Abbreviation rent := (row_entries Image_open phash similarity_threshold image_files).

Lemma row_entries_filter (i : nat) :
  rent i = flat_map (fun p => pent (fst p) (snd p))
                    (map (pair i) (filter (qual i) (range (i + 1) N))).
Proof.
  unfold row_entries. generalize (range (i + 1) N). intros js.
  induction js as [|j js IH]; cbn [flat_map filter map]; [reflexivity|].
  destruct (qual i j); cbn [flat_map map app]; now rewrite IH.
Qed.

Lemma rows_entries_filter (anchors : list nat) :
  List.concat (map snd (map (fun i => (i, rent i)) anchors)) =
  flat_map (fun p => pent (fst p) (snd p))
           (flat_map (fun i => map (pair i) (filter (qual i) (range (i + 1) N))) anchors).
Proof.
  induction anchors as [|i anchors IH]; cbn [map List.concat flat_map snd]; [reflexivity|].
  now rewrite flat_map_app, IH, row_entries_filter.
Qed.

(** The entries of all groups, in order, are those of the qualifying pairs
    in row-major order. *)
Lemma grouping_entries :
  List.concat (map snd (grouping Image_open phash similarity_threshold image_files)) =
  flat_map (fun p => pent (fst p) (snd p))
           (filter (fun p => qual (fst p) (snd p)) (all_pairs N)).
Proof.
  rewrite grouping_closed, labelled_entries. unfold anchored_groups.
  rewrite numbered_entries, rows_entries_filter. unfold all_pairs.
  now rewrite filter_rows.
Qed.

End Comparator.

(** C4.  When every listed image decodes, the two loops compare every pair
    [i < j] of the [N] images exactly once, in row-major order, which makes
    N(N-1)/2 comparisons; the pairs that qualify are exactly those whose
    score is at least the threshold, and they alone contribute entries to the
    groups; the progress count takes the values 1..N, one step per value of
    [i]. *)
Theorem pairwise_comparator
    (image : Type) (Image_open : string -> option image)
    (phash : image -> option fingerprint) (clock : nat -> float)
    (similarity_threshold : pyfloat) (verbose : bool)
    (image_files : list string) (w : world) :
  (forall p, In p image_files -> decodable Image_open phash p = true) ->
  exists (gs : groups) (evs : list event),
    comparison_loops Image_open phash clock similarity_threshold verbose image_files w
      = (Ok gs, snd (comparison_loops Image_open phash clock similarity_threshold verbose
                                      image_files w)) /\
    trace (snd (comparison_loops Image_open phash clock similarity_threshold verbose
                                 image_files w)) = trace w ++ evs /\
    compared_pairs evs = all_pairs (List.length image_files) /\
    List.length (compared_pairs evs)
      = List.length image_files * (List.length image_files - 1) / 2 /\
    NoDup (compared_pairs evs) /\
    (forall i j, In (i, j) (compared_pairs evs) <-> i < j < List.length image_files) /\
    qualified_pairs evs
      = filter (fun p => float_ge (score Image_open phash image_files (fst p) (snd p))
                                  similarity_threshold)
               (all_pairs (List.length image_files)) /\
    List.concat (map snd gs)
      = flat_map (fun p => pair_entries Image_open phash image_files (fst p) (snd p))
                 (qualified_pairs evs) /\
    progress_steps evs = seq 1 (List.length image_files).
Proof.
  intros D.
  pose proof (rows_ok_all _ Image_open phash image_files
                (range 0 (List.length image_files)) D) as R.
  destruct (comparison_loops_ok Image_open phash clock similarity_threshold verbose
              image_files w R) as (I1 & I2 & _).
  eexists. eexists. split; [|split; [exact I2|]].
  - rewrite <- I1. now destruct (comparison_loops _ _ _ _ _ _ w).
  - rewrite compared_run_events, qualified_run_events, progress_run_events.
    split; [reflexivity|]. split; [apply length_all_pairs|].
    split; [apply NoDup_all_pairs|]. split; [intros i j; apply in_all_pairs|].
    split; [reflexivity|]. split; [apply grouping_entries | reflexivity].
Qed.

Lemma pairwise_comparator_witness :
  (forall p, In p (get_image_files Album.os_walk "pics") ->
             decodable Album.Image_open Album.phash p = true) /\
  exists (gs : groups) (evs : list event),
    trace (snd (comparison_loops Album.Image_open Album.phash Album.clock (Finite (1 # 8))
                                 true (get_image_files Album.os_walk "pics") Album.fresh))
      = evs /\
    List.length (compared_pairs evs) = 6 /\
    progress_steps evs = [1; 2; 3; 4].
Proof.
  assert (D : forall p, In p (get_image_files Album.os_walk "pics") ->
                        decodable Album.Image_open Album.phash p = true).
  { intros p H. vm_compute in H. repeat (destruct H as [<-|H]; [reflexivity|]). destruct H. }
  split; [exact D|].
  destruct (pairwise_comparator fingerprint Album.Image_open Album.phash Album.clock
              (Finite (1 # 8)) true (get_image_files Album.os_walk "pics") Album.fresh D)
    as (gs & evs & _ & T & _ & L & _ & _ & _ & _ & P).
  exists gs, evs. repeat split; [exact T | exact L | exact P].
Defined.

(** ** The Grouping Engine *)

Lemma engine_run_closed
    (image : Type) (Image_open : string -> option image)
    (phash : image -> option fingerprint)
    (similarity_threshold : pyfloat) (image_files : list string) :
  engine_run Image_open phash similarity_threshold image_files =
  (StateA, map strip (anchored_groups Image_open phash similarity_threshold image_files)).
Proof.
  unfold engine_run, anchored_groups.
  now rewrite engine_rows_closed by reflexivity.
Qed.

(** C3.  When every listed image decodes, the dictionary the loops build is
    the list of groups of the specification's state machine run over the
    same pairs: per anchor, the first qualifying edge allocates the group
    with the next sequential integer and adds both names with the edge's
    score, every later qualifying edge of the anchor appends both names to
    that group, and the end of the anchor's row returns to state A, so that
    the next anchor opens a group of its own.  The labels are 1, 2, ... in
    the order of creation, and there is one group per anchor that has a
    qualifying edge, holding that anchor's row of entries. *)
Theorem grouping_state_machine
    (image : Type) (Image_open : string -> option image)
    (phash : image -> option fingerprint) (clock : nat -> float)
    (similarity_threshold : pyfloat) (verbose : bool)
    (image_files : list string) (w : world) :
  (forall p, In p image_files -> decodable Image_open phash p = true) ->
  fst (comparison_loops Image_open phash clock similarity_threshold verbose image_files w)
    = Ok (labelled (snd (engine_run Image_open phash similarity_threshold image_files))) /\
  fst (engine_run Image_open phash similarity_threshold image_files) = StateA /\
  labels_ok (snd (engine_run Image_open phash similarity_threshold image_files)) /\
  snd (engine_run Image_open phash similarity_threshold image_files)
    = map strip (anchored_groups Image_open phash similarity_threshold image_files).
Proof.
  intros D.
  pose proof (rows_ok_all _ Image_open phash image_files
                (range 0 (List.length image_files)) D) as R.
  destruct (comparison_loops_ok Image_open phash clock similarity_threshold verbose
              image_files w R) as (I1 & _).
  rewrite I1, grouping_engine, engine_run_closed. cbn [fst snd].
  repeat split. apply number_from_labels.
Qed.

Lemma grouping_state_machine_witness :
  (forall p, In p (get_image_files Album.os_walk "pics") ->
             decodable Album.Image_open Album.phash p = true) /\
  fst (comparison_loops Album.Image_open Album.phash Album.clock (Finite (1 # 8)) true
                        (get_image_files Album.os_walk "pics") Album.fresh)
    = Ok (labelled (snd (engine_run Album.Image_open Album.phash (Finite (1 # 8))
                                    (get_image_files Album.os_walk "pics")))).
Proof.
  assert (D : forall p, In p (get_image_files Album.os_walk "pics") ->
                        decodable Album.Image_open Album.phash p = true).
  { intros p H. vm_compute in H. repeat (destruct H as [<-|H]; [reflexivity|]). destruct H. }
  split; [exact D|].
  apply (grouping_state_machine fingerprint Album.Image_open Album.phash Album.clock
           (Finite (1 # 8)) true (get_image_files Album.os_walk "pics") Album.fresh D).
Defined.

(** The engine on the album: three anchors open a group each. *)
Example engine_run_album :
  snd (engine_run Album.Image_open Album.phash (Finite (1 # 8))
                  (get_image_files Album.os_walk "pics")) =
  [(1, [("a.jpg", 64 # 256); ("b.png", 64 # 256); ("a.jpg", 32 # 256); ("c.jpeg", 32 # 256)]);
   (2, [("b.png", 32 # 256); ("c.jpeg", 32 # 256); ("b.png", 64 # 256); ("a.jpg", 64 # 256)]);
   (3, [("c.jpeg", 32 # 256); ("a.jpg", 32 # 256)])].
Proof. vm_compute. reflexivity. Qed.

(** ** Raising the threshold *)

Lemma subseq_nil_l {A : Type} (l : list A) : subseq [] l.
Proof. induction l; constructor; assumption. Qed.

Lemma subseq_refl {A : Type} (l : list A) : subseq l l.
Proof. induction l; constructor; assumption. Qed.

Lemma subseq_app {A : Type} (a b c d : list A) :
  subseq a b -> subseq c d -> subseq (a ++ c) (b ++ d).
Proof.
  intros H K. induction H; cbn; try (constructor; assumption). exact K.
Qed.

Lemma subseq_incl {A : Type} (a b : list A) : subseq a b -> incl a b.
Proof.
  intros H. induction H; intros y Hy.
  - exact Hy.
  - right. now apply IHsubseq.
  - destruct Hy as [->|Hy]; [now left | right; now apply IHsubseq].
Qed.

Lemma subseq_nonempty {A : Type} (a b : list A) : subseq a b -> a <> [] -> b <> [].
Proof. intros H. destruct H; congruence. Qed.

Section Monotone.

Variable image : Type.
Variable Image_open : string -> option image.
Variable phash : image -> option fingerprint.
Variable image_files : list string.
Variables t1 t2 : pyfloat.
Hypothesis raised : float_lt t1 t2.

Lemma qualifies_antitone (i j : nat) :
  qualifies Image_open phash t2 image_files i j = true ->
  qualifies Image_open phash t1 image_files i j = true.
Proof. unfold qualifies. now apply float_ge_antitone. Qed.

Lemma row_entries_antitone (i : nat) :
  subseq (row_entries Image_open phash t2 image_files i)
         (row_entries Image_open phash t1 image_files i).
Proof.
  unfold row_entries. generalize (range (i + 1) (List.length image_files)). intros js.
  induction js as [|j js IH]; cbn [flat_map]; [constructor|].
  apply subseq_app; [|exact IH].
  pose proof (qualifies_antitone i j) as Q.
  destruct (qualifies Image_open phash t2 image_files i j).
  - rewrite Q by reflexivity. apply subseq_refl.
  - apply subseq_nil_l.
Qed.

Lemma grouping_antitone (label2 : string) (es2 : list entry) :
  In (label2, es2) (grouping Image_open phash t2 image_files) ->
  exists label1 es1,
    In (label1, es1) (grouping Image_open phash t1 image_files) /\ subseq es2 es1.
Proof.
  rewrite !grouping_closed. intros H.
  apply labelled_in in H as (n & -> & H).
  apply in_map_iff in H as ([n' [i es]] & E & H). unfold strip in E. cbn in E.
  inversion E; subst n' es. clear E.
  apply number_from_sound in H as (H & Hne & _).
  apply in_map_iff in H as (i' & E & Hi). inversion E; subst i' es2. clear E.
  pose proof (row_entries_antitone i) as S.
  pose proof (subseq_nonempty _ _ S Hne) as Hne1.
  destruct (number_from_complete 1
              (map (fun i => (i, row_entries Image_open phash t1 image_files i))
                   (range 0 (List.length image_files)))
              i (row_entries Image_open phash t1 image_files i)) as [n1 Hn1];
    [apply in_map_iff; eauto | exact Hne1 |].
  exists (group_label n1), (row_entries Image_open phash t1 image_files i).
  split; [|exact S].
  apply labelled_in. exists n1. split; [reflexivity|].
  apply in_map_iff. exists (n1, (i, row_entries Image_open phash t1 image_files i)).
  split; [reflexivity | exact Hn1].
Qed.

End Monotone.

(** C7.  For thresholds [t1 < t2] on one ordered image list, every pair
    that qualifies at [t2] qualifies at [t1], and every group built at [t2]
    has its entries, in order, among the entries of a group built at [t1]. *)
Theorem threshold_monotone
    (image : Type) (Image_open : string -> option image)
    (phash : image -> option fingerprint) (clock : nat -> float)
    (image_files : list string) (t1 t2 : pyfloat)
    (verbose1 verbose2 : bool) (w1 w2 : world) (gs1 gs2 : groups) :
  float_lt t1 t2 ->
  fst (comparison_loops Image_open phash clock t1 verbose1 image_files w1) = Ok gs1 ->
  fst (comparison_loops Image_open phash clock t2 verbose2 image_files w2) = Ok gs2 ->
  (forall i j,
      qualifies Image_open phash t2 image_files i j = true ->
      qualifies Image_open phash t1 image_files i j = true) /\
  (forall label2 es2,
      In (label2, es2) gs2 ->
      exists label1 es1, In (label1, es1) gs1 /\ subseq es2 es1 /\ incl es2 es1).
Proof.
  intros L H1 H2.
  apply comparison_loops_returns in H1 as [_ ->], H2 as [_ ->].
  split.
  - intros i j. now apply qualifies_antitone.
  - intros label2 es2 H.
    destruct (grouping_antitone _ Image_open phash image_files t1 t2 L label2 es2 H)
      as (label1 & es1 & H1 & S).
    exists label1, es1. repeat split; [exact H1 | exact S | now apply subseq_incl].
Qed.

Lemma threshold_monotone_witness :
  float_lt (Finite (1 # 8)) (Finite (1 # 4)) /\
  (forall label2 es2,
      In (label2, es2)
         [("Similarity Group 1", [("a.jpg", 64 # 256); ("b.png", 64 # 256)]);
          ("Similarity Group 2", [("b.png", 64 # 256); ("a.jpg", 64 # 256)])] ->
      exists label1 es1,
        In (label1, es1)
           [("Similarity Group 1",
             [("a.jpg", 64 # 256); ("b.png", 64 # 256);
              ("a.jpg", 32 # 256); ("c.jpeg", 32 # 256)]);
            ("Similarity Group 2",
             [("b.png", 32 # 256); ("c.jpeg", 32 # 256);
              ("b.png", 64 # 256); ("a.jpg", 64 # 256)]);
            ("Similarity Group 3", [("c.jpeg", 32 # 256); ("a.jpg", 32 # 256)])] /\
        subseq es2 es1 /\ incl es2 es1).
Proof.
  split; [reflexivity|].
  apply (threshold_monotone fingerprint Album.Image_open Album.phash Album.clock
           (get_image_files Album.os_walk "pics") (Finite (1 # 8)) (Finite (1 # 4))
           true false Album.fresh Album.fresh).
  - reflexivity.
  - vm_compute. reflexivity.
  - vm_compute. reflexivity.
Defined.

(** ** The shape of a group *)

Section Shape.

Variable image : Type.
Variable Image_open : string -> option image.
Variable phash : image -> option fingerprint.
Variable similarity_threshold : pyfloat.
Variable image_files : list string.

Local Abbreviation dn := (display_name image_files).
Local Abbreviation qual := (qualifies Image_open phash similarity_threshold image_files).
Local Abbreviation pent := (pair_entries Image_open phash image_files).

(** A row of entries is a sequence of (anchor, partner) pairs, each with one
    score. *)
Lemma row_shape (i : nat) (js : list nat) :
  Nat.Even (List.length (flat_map (fun j => if qual i j then pent i j else []) js)) /\
  forall k,
    2 * k < List.length (flat_map (fun j => if qual i j then pent i j else []) js) ->
    exists b s,
      nth_error (flat_map (fun j => if qual i j then pent i j else []) js) (2 * k)
        = Some (dn i, s) /\
      nth_error (flat_map (fun j => if qual i j then pent i j else []) js) (2 * k + 1)
        = Some (b, s).
Proof.
  unfold pair_entries. induction js as [|j js [IHe IHk]]; cbn [flat_map].
  - split; [exists 0; reflexivity | intros k Hk; cbn [List.length] in Hk; lia].
  - destruct (qual i j); [|split; assumption].
    cbn [app List.length]. split.
    + destruct IHe as [m Hm]. exists (S m). lia.
    + intros [|k] Hk.
      * cbn. eauto.
      * replace (2 * S k) with (S (S (2 * k))) by lia.
        replace (S (S (2 * k)) + 1) with (S (S (2 * k + 1))) by lia.
        cbn [nth_error]. apply IHk. lia.
Qed.

Lemma grouping_shape (label : string) (es : list entry) :
  In (label, es) (grouping Image_open phash similarity_threshold image_files) ->
  exists i,
    i < List.length image_files /\
    es = row_entries Image_open phash similarity_threshold image_files i /\ es <> [].
Proof.
  rewrite grouping_closed. intros H.
  apply labelled_in in H as (n & -> & H).
  apply in_map_iff in H as ([n' [i es']] & E & H). unfold strip in E. cbn in E.
  inversion E; subst n' es'. clear E.
  apply number_from_sound in H as (H & Hne & _).
  apply in_map_iff in H as (i' & E & Hi). inversion E; subst i' es. clear E.
  apply in_range in Hi. exists i. repeat split; [lia | exact Hne].
Qed.

End Shape.

(** C9.  Every group the loops produce belongs to one anchor image: its
    entry sequence has even, strictly positive length, and for every [k] its
    entries at positions [2k] and [2k+1] are the anchor's display name and a
    partner's, with one and the same score. *)
Theorem group_invariant
    (image : Type) (Image_open : string -> option image)
    (phash : image -> option fingerprint) (clock : nat -> float)
    (similarity_threshold : pyfloat) (verbose : bool)
    (image_files : list string) (w : world)
    (gs : groups) (label : string) (es : list entry) :
  fst (comparison_loops Image_open phash clock similarity_threshold verbose image_files w)
    = Ok gs ->
  In (label, es) gs ->
  0 < List.length es /\ Nat.Even (List.length es) /\
  exists i,
    i < List.length image_files /\
    forall k,
      2 * k < List.length es ->
      exists partner s,
        nth_error es (2 * k) = Some (display_name image_files i, s) /\
        nth_error es (2 * k + 1) = Some (partner, s).
Proof.
  intros H Hin. apply comparison_loops_returns in H as [_ ->].
  apply grouping_shape in Hin as (i & Hi & -> & Hne).
  unfold row_entries, pair_entries in *.
  destruct (row_shape _ Image_open phash similarity_threshold image_files i
              (range (i + 1) (List.length image_files))) as [He Hk].
  repeat split.
  - destruct (flat_map _ _); [congruence | cbn; lia].
  - exact He.
  - exists i. split; [exact Hi | exact Hk].
Qed.

Lemma group_invariant_witness :
  In ("Similarity Group 2",
      [("b.png", 32 # 256); ("c.jpeg", 32 # 256); ("b.png", 64 # 256); ("a.jpg", 64 # 256)])
     [("Similarity Group 1",
       [("a.jpg", 64 # 256); ("b.png", 64 # 256); ("a.jpg", 32 # 256); ("c.jpeg", 32 # 256)]);
      ("Similarity Group 2",
       [("b.png", 32 # 256); ("c.jpeg", 32 # 256); ("b.png", 64 # 256); ("a.jpg", 64 # 256)]);
      ("Similarity Group 3", [("c.jpeg", 32 # 256); ("a.jpg", 32 # 256)])] /\
  Nat.Even 4.
Proof.
  assert (H : In ("Similarity Group 2",
                  [("b.png", 32 # 256); ("c.jpeg", 32 # 256);
                   ("b.png", 64 # 256); ("a.jpg", 64 # 256)])
                 [("Similarity Group 1",
                   [("a.jpg", 64 # 256); ("b.png", 64 # 256);
                    ("a.jpg", 32 # 256); ("c.jpeg", 32 # 256)]);
                  ("Similarity Group 2",
                   [("b.png", 32 # 256); ("c.jpeg", 32 # 256);
                    ("b.png", 64 # 256); ("a.jpg", 64 # 256)]);
                  ("Similarity Group 3", [("c.jpeg", 32 # 256); ("a.jpg", 32 # 256)])])
    by (right; left; reflexivity).
  split; [exact H|].
  apply (group_invariant fingerprint Album.Image_open Album.phash Album.clock
           (Finite (1 # 8)) true (get_image_files Album.os_walk "pics") Album.fresh
           _ _ _ ltac:(vm_compute; reflexivity) H).
Defined.

(** ** Identical images *)

Lemma float_ge_normalize_0 (t : pyfloat) : float_ge (normalize 0) t = float_ge 0 t.
Proof.
  destruct t as [q| | |]; cbn; try reflexivity.
  unfold Qle_bool, normalize. cbn.
  apply Bool.eq_iff_eq_true. rewrite !Z.leb_le. lia.
Qed.

Section Identical.

Variable image : Type.
Variable Image_open : string -> option image.
Variable phash : image -> option fingerprint.
Variable similarity_threshold : pyfloat.
Variable image_files : list string.

Lemma score_identical (i j : nat) (h : fingerprint) :
  fingerprint_of Image_open phash (nth i image_files "") = Some h ->
  fingerprint_of Image_open phash (nth j image_files "") = Some h ->
  score Image_open phash image_files i j = normalize 0.
Proof.
  intros Hi Hj. unfold score, hash_at. now rewrite Hi, Hj, hash_sub_diag.
Qed.

Lemma qualifying_pair_grouped (i j : nat) :
  i < j < List.length image_files ->
  qualifies Image_open phash similarity_threshold image_files i j = true ->
  exists label before after,
    In (label, before ++ pair_entries Image_open phash image_files i j ++ after)
       (grouping Image_open phash similarity_threshold image_files).
Proof.
  intros Hij Q.
  assert (Hj : In j (range (i + 1) (List.length image_files))) by (apply in_range; lia).
  apply in_split in Hj as (js1 & js2 & Ej).
  set (fn := fun j0 => if qualifies Image_open phash similarity_threshold image_files i j0
                       then pair_entries Image_open phash image_files i j0 else []).
  assert (E : row_entries Image_open phash similarity_threshold image_files i =
              flat_map fn js1 ++ pair_entries Image_open phash image_files i j
                               ++ flat_map fn js2).
  { unfold row_entries. fold fn. rewrite Ej, flat_map_app. cbn [flat_map].
    unfold fn at 2. now rewrite Q. }
  destruct (number_from_complete 1
              (map (fun i => (i, row_entries Image_open phash similarity_threshold
                                             image_files i))
                   (range 0 (List.length image_files)))
              i (row_entries Image_open phash similarity_threshold image_files i))
    as [n Hn].
  - apply in_map_iff. exists i. split; [reflexivity | apply in_range; lia].
  - rewrite E. unfold pair_entries. now destruct (flat_map fn js1).
  - exists (group_label n), (flat_map fn js1), (flat_map fn js2).
    rewrite grouping_closed, <- E. apply labelled_in. exists n. split; [reflexivity|].
    apply in_map_iff.
    exists (n, (i, row_entries Image_open phash similarity_threshold image_files i)).
    split; [reflexivity | exact Hn].
Qed.

Lemma two_images_no_group :
  List.length image_files = 2 ->
  qualifies Image_open phash similarity_threshold image_files 0 1 = false ->
  grouping Image_open phash similarity_threshold image_files = [].
Proof.
  intros HN Q. rewrite grouping_closed. unfold anchored_groups, row_entries.
  rewrite HN. cbn. now rewrite Q.
Qed.

End Identical.

(** C1, as the code has it.  Two identical images have the normalized
    score 0.  The pair qualifies when the threshold is at most 0, and the
    group of the earlier image then holds the two names side by side.  For
    every threshold greater than 0 the pair does not qualify, and a list of
    just these two images yields no group. *)
Theorem identical_images
    (image : Type) (Image_open : string -> option image)
    (phash : image -> option fingerprint) (clock : nat -> float)
    (similarity_threshold : pyfloat) (verbose : bool)
    (image_files : list string) (w : world) (gs : groups)
    (i j : nat) (h : fingerprint) :
  i < j < List.length image_files ->
  fingerprint_of Image_open phash (nth i image_files "") = Some h ->
  fingerprint_of Image_open phash (nth j image_files "") = Some h ->
  fst (comparison_loops Image_open phash clock similarity_threshold verbose image_files w)
    = Ok gs ->
  (score Image_open phash image_files i j == 0)%Q /\
  (float_ge 0 similarity_threshold = true ->
   qualifies Image_open phash similarity_threshold image_files i j = true /\
   exists label before after,
     In (label, before ++ [(display_name image_files i, score Image_open phash image_files i j);
                           (display_name image_files j, score Image_open phash image_files i j)]
                       ++ after) gs) /\
  (float_lt (Finite 0) similarity_threshold ->
   qualifies Image_open phash similarity_threshold image_files i j = false /\
   (List.length image_files = 2 -> gs = [])).
Proof.
  intros Hij Hi Hj H. apply comparison_loops_returns in H as [_ ->].
  pose proof (score_identical _ Image_open phash image_files i j h Hi Hj) as Hs.
  assert (Hq : qualifies Image_open phash similarity_threshold image_files i j
               = float_ge 0 similarity_threshold).
  { unfold qualifies. rewrite Hs. apply float_ge_normalize_0. }
  split; [|split].
  - rewrite Hs. reflexivity.
  - intros G. rewrite G in Hq. split; [exact Hq|].
    now apply qualifying_pair_grouped.
  - intros L. rewrite (float_ge_zero_pos _ L) in Hq. split; [exact Hq|].
    intros HN. apply two_images_no_group; [exact HN|].
    assert (Ei : i = 0) by lia. assert (Ej : j = 1) by lia. subst i j. exact Hq.
Qed.

Lemma identical_images_witness :
  0 < 3 < List.length (get_image_files Album.os_walk "pics") /\
  fingerprint_of Album.Image_open Album.phash
                 (nth 0 (get_image_files Album.os_walk "pics") "") = Some Album.zeros /\
  fingerprint_of Album.Image_open Album.phash
                 (nth 3 (get_image_files Album.os_walk "pics") "") = Some Album.zeros /\
  (score Album.Image_open Album.phash (get_image_files Album.os_walk "pics") 0 3 == 0)%Q.
Proof.
  split; [vm_compute; lia|]. split; [reflexivity|]. split; [reflexivity|].
  eapply (identical_images fingerprint Album.Image_open Album.phash Album.clock
            (Finite (1 # 8)) true (get_image_files Album.os_walk "pics") Album.fresh
            _ 0 3 Album.zeros).
  - vm_compute. lia.
  - reflexivity.
  - reflexivity.
  - vm_compute. reflexivity.
Defined.

(** C1 as stated fails: the two images of [twins] have one fingerprint, the
    threshold 1/2 is greater than 0, and the run builds no group at all, so
    no group holds the two; the report has the header row only. *)
Lemma identical_twins_not_grouped :
  get_image_files Album.os_walk "twins" = ["twins/x.jpg"; "twins/y.jpg"] /\
  fingerprint_of Album.Image_open Album.phash "twins/x.jpg" = Some Album.half /\
  fingerprint_of Album.Image_open Album.phash "twins/y.jpg" = Some Album.half /\
  float_lt (Finite 0) (Finite (1 # 2)) /\
  fst (comparison_loops Album.Image_open Album.phash Album.clock (Finite (1 # 2)) false
                        (get_image_files Album.os_walk "twins") Album.fresh) = Ok [] /\
  files (snd (main Album.os_walk Album.Image_open Album.phash Album.clock
                   (Args "twins" (Finite (1 # 2)) "out.csv" false false 1) Album.fresh))
        "out.csv" = Some [header].
Proof.
  repeat split; vm_compute; reflexivity.
Qed.

(** ** The flags *)

Lemma agree_ret {A : Type} (a : A) : agree (ret a) (ret a).
Proof. intros w1 w2 H. cbn. auto. Qed.

Lemma agree_bind {A B : Type} (m1 m2 : M A) (f1 f2 : A -> M B) :
  agree m1 m2 -> (forall a, agree (f1 a) (f2 a)) -> agree (bind m1 f1) (bind m2 f2).
Proof.
  intros Hm Hf w1 w2 H. unfold bind. destruct (Hm w1 w2 H) as [E HS].
  destruct (m1 w1) as [[a1|e1] w1'], (m2 w2) as [[a2|e2] w2']; cbn [fst snd] in E, HS;
    try discriminate E.
  - inversion E; subst. now apply Hf.
  - cbn [fst snd]. inversion E; subst. auto.
Qed.

Lemma agree_when_print (b1 b2 : bool) (l1 l2 : line) :
  agree (when b1 (print l1)) (when b2 (print l2)).
Proof.
  intros w1 w2 (H1 & H2 & H3 & H4). destruct b1, b2; cbn; unfold same_effects; cbn; auto.
Qed.

Lemma agree_emit (e : event) : agree (emit e) (emit e).
Proof.
  intros w1 w2 (H1 & H2 & H3 & H4). unfold same_effects; cbn. rewrite H3. auto.
Qed.

Lemma agree_lift {A : Type} (r : result A) : agree (lift r) (lift r).
Proof. intros w1 w2 H. cbn. auto. Qed.

Lemma agree_write_file (path : string) (content : csv) :
  agree (write_file path content) (write_file path content).
Proof.
  intros w1 w2 (H1 & H2 & H3 & H4). unfold same_effects, write_file. rewrite H4.
  destruct (media w2 path) as [|limit]; cbn; [auto|]. rewrite H2. auto.
Qed.

Lemma agree_for_each {St : Type} (xs : list nat) (body1 body2 : nat -> St -> M St) (s : St) :
  (forall x s', agree (body1 x s') (body2 x s')) ->
  agree (for_each xs body1 s) (for_each xs body2 s).
Proof.
  intros Hb. revert s. induction xs as [|x xs IH]; intros s; cbn [for_each].
  - apply agree_ret.
  - apply agree_bind; [apply Hb | intros s'; apply IH].
Qed.

Section Flags.

Variable os_walk : string -> list (string * list string).
Variable image : Type.
Variable Image_open : string -> option image.
Variable phash : image -> option fingerprint.
Variable clock : nat -> float.
Variable similarity_threshold : pyfloat.
Variables verbose1 verbose2 : bool.

Lemma agree_time_time : agree (time_time clock) (time_time clock).
Proof.
  intros w1 w2 (H1 & H2 & H3 & H4). unfold same_effects, time_time; cbn. rewrite H1. auto.
Qed.

Lemma agree_calculate (p1 p2 : string) :
  agree (calculate_similarity_index Image_open phash p1 p2)
        (calculate_similarity_index Image_open phash p1 p2).
Proof.
  intros w1 w2 H. rewrite !calculate_similarity_index_run. cbn. auto.
Qed.

Lemma agree_inner_body (image_files : list string) (i j : nat) (st : option string * groups) :
  agree (inner_body Image_open phash similarity_threshold verbose1 image_files i j st)
        (inner_body Image_open phash similarity_threshold verbose2 image_files i j st).
Proof.
  destruct st as [sg gs]. unfold inner_body.
  apply agree_bind; [apply agree_emit | intros _].
  apply agree_bind; [apply agree_calculate | intros raw].
  apply agree_bind; [apply agree_when_print | intros _].
  destruct (float_ge (normalize raw) similarity_threshold).
  - apply agree_bind; [apply agree_emit | intros _]. apply agree_ret.
  - apply agree_ret.
Qed.

Lemma agree_outer_body (image_files : list string) (start_time : float) (i : nat)
      (st : groups * nat) :
  agree (outer_body Image_open phash clock similarity_threshold verbose1 image_files
                    start_time i st)
        (outer_body Image_open phash clock similarity_threshold verbose2 image_files
                    start_time i st).
Proof.
  destruct st as [gs progress]. unfold outer_body.
  apply agree_bind; [apply agree_for_each; intros; apply agree_inner_body | intros st'].
  apply agree_bind; [apply agree_emit | intros _].
  apply agree_bind; [apply agree_time_time | intros now].
  apply agree_bind;
    [destruct (Nat.ltb 0 (progress + 1)); [apply agree_lift | apply agree_ret]
    | intros time_per_image].
  apply agree_bind; [apply agree_when_print | intros _].
  apply agree_ret.
Qed.

Lemma agree_comparison_loops (image_files : list string) :
  agree (comparison_loops Image_open phash clock similarity_threshold verbose1 image_files)
        (comparison_loops Image_open phash clock similarity_threshold verbose2 image_files).
Proof.
  unfold comparison_loops.
  apply agree_bind; [apply agree_time_time | intros start_time].
  apply agree_bind; [apply agree_for_each; intros; apply agree_outer_body | intros st].
  apply agree_ret.
Qed.

Lemma agree_generate (image_directory output_csv : string)
      (use_light_model1 use_light_model2 : bool) (batch_size1 batch_size2 : Z) :
  agree (generate_similarity_groups os_walk Image_open phash clock image_directory
           similarity_threshold output_csv verbose1 use_light_model1 batch_size1)
        (generate_similarity_groups os_walk Image_open phash clock image_directory
           similarity_threshold output_csv verbose2 use_light_model2 batch_size2).
Proof.
  unfold generate_similarity_groups.
  apply agree_bind; [apply agree_when_print | intros _].
  apply agree_bind; [apply agree_comparison_loops | intros gs].
  apply agree_bind; [apply agree_write_file | intros _].
  apply agree_when_print.
Qed.

End Flags.

Lemma same_effects_refl (w : world) : same_effects w w.
Proof. unfold same_effects. auto. Qed.

(** C10.  Two runs on the same directory with the same threshold and output
    path that differ only in [verbose], [use_light_model] and [batch_size]
    return or raise the same, build the same dictionary of groups (labels,
    members and scores), leave the same files with the same report rows and
    make the same comparisons; only the console may differ. *)
Theorem flags_do_not_change_groups
    (os_walk : string -> list (string * list string))
    (image : Type) (Image_open : string -> option image)
    (phash : image -> option fingerprint) (clock : nat -> float)
    (image_directory : string) (similarity_threshold : pyfloat) (output_csv : string)
    (verbose1 verbose2 use_light_model1 use_light_model2 : bool)
    (batch_size1 batch_size2 : Z) (w : world) :
  fst (comparison_loops Image_open phash clock similarity_threshold verbose1
                        (get_image_files os_walk image_directory) w)
    = fst (comparison_loops Image_open phash clock similarity_threshold verbose2
                            (get_image_files os_walk image_directory) w) /\
  fst (generate_similarity_groups os_walk Image_open phash clock image_directory
         similarity_threshold output_csv verbose1 use_light_model1 batch_size1 w)
    = fst (generate_similarity_groups os_walk Image_open phash clock image_directory
             similarity_threshold output_csv verbose2 use_light_model2 batch_size2 w) /\
  files (snd (generate_similarity_groups os_walk Image_open phash clock image_directory
                similarity_threshold output_csv verbose1 use_light_model1 batch_size1 w))
    = files (snd (generate_similarity_groups os_walk Image_open phash clock image_directory
                    similarity_threshold output_csv verbose2 use_light_model2 batch_size2 w)) /\
  trace (snd (generate_similarity_groups os_walk Image_open phash clock image_directory
                similarity_threshold output_csv verbose1 use_light_model1 batch_size1 w))
    = trace (snd (generate_similarity_groups os_walk Image_open phash clock image_directory
                    similarity_threshold output_csv verbose2 use_light_model2 batch_size2 w)).
Proof.
  destruct (agree_comparison_loops _ Image_open phash clock similarity_threshold
              verbose1 verbose2 (get_image_files os_walk image_directory) w w
              (same_effects_refl w)) as [E1 _].
  destruct (agree_generate os_walk _ Image_open phash clock similarity_threshold
              verbose1 verbose2 image_directory output_csv
              use_light_model1 use_light_model2 batch_size1 batch_size2 w w
              (same_effects_refl w)) as [E2 (_ & F & T & _)].
  auto.
Qed.

(** The flags on the album: the same report with and without the console. *)
Example flags_album :
  files (snd (main Album.os_walk Album.Image_open Album.phash Album.clock
                   (Args "pics" (Finite (1 # 8)) "out.csv" true true 16) Album.fresh))
        "out.csv"
  = files (snd (main Album.os_walk Album.Image_open Album.phash Album.clock
                     (Args "pics" (Finite (1 # 8)) "out.csv" false false 1) Album.fresh))
          "out.csv".
Proof. vm_compute. reflexivity. Qed.

(** * Further properties of the code *)

(** ** File names and paths *)

Local Open Scope string_scope.

Lemma substring_0_all (s : string) : substring 0 (String.length s) s = s.
Proof. induction s as [|c s IH]; cbn; [reflexivity | now rewrite IH]. Qed.

Lemma substring_skip_app (pre s : string) (m : nat) :
  substring (String.length pre) m (pre ++ s) = substring 0 m s.
Proof. induction pre as [|c pre IH]; cbn; [reflexivity | exact IH]. Qed.

Lemma string_split_at (k : nat) (s : string) :
  k <= String.length s ->
  s = substring 0 k s ++ substring k (String.length s - k) s.
Proof.
  revert k. induction s as [|c s IH]; intros [|k] H; cbn in *; try lia.
  - reflexivity.
  - now rewrite substring_0_all.
  - rewrite <- IH by lia. reflexivity.
Qed.

Lemma length_append (a b : string) :
  String.length (a ++ b) = String.length a + String.length b.
Proof. induction a as [|c a IH]; cbn; [reflexivity | now rewrite IH]. Qed.

Lemma append_assoc (a b c : string) : (a ++ b) ++ c = a ++ b ++ c.
Proof. induction a as [|x a IH]; cbn; [reflexivity | now rewrite IH]. Qed.

(** [s.endswith(suffix)] holds exactly when [s] is something followed by
    [suffix]. *)
Lemma endswith_spec (s suffix : string) :
  endswith s suffix = true <-> exists stem, s = stem ++ suffix.
Proof.
  unfold endswith. split.
  - intros H. apply andb_prop in H as [L E].
    apply Nat.leb_le in L. apply String.eqb_eq in E.
    exists (substring 0 (String.length s - String.length suffix) s).
    pose proof (string_split_at (String.length s - String.length suffix) s ltac:(lia)) as Hs.
    replace (String.length s - (String.length s - String.length suffix))
      with (String.length suffix) in Hs by lia.
    rewrite E in Hs. exact Hs.
  - intros [stem ->]. rewrite length_append. apply andb_true_intro. split.
    + apply Nat.leb_le. lia.
    + replace (String.length stem + String.length suffix - String.length suffix)
        with (String.length stem) by lia.
      rewrite substring_skip_app, substring_0_all. apply String.eqb_refl.
Qed.

Lemma is_image_name_spec (filename : string) :
  is_image_name filename = true <->
  exists stem,
    filename = stem ++ ".jpg" \/ filename = stem ++ ".png" \/ filename = stem ++ ".jpeg".
Proof.
  unfold is_image_name. rewrite !orb_true_iff, !endswith_spec. split.
  - intros [[[stem H]|[stem H]]|[stem H]]; exists stem; auto.
  - intros [stem [H|[H|H]]]; eauto.
Qed.

(** X1.  The file discovery returns exactly the files of the walked tree
    whose names end in [.jpg], [.png] or [.jpeg], lower case as written, each
    joined to the path of its directory. *)
Theorem get_image_files_spec
    (os_walk : string -> list (string * list string)) (directory path : string) :
  In path (get_image_files os_walk directory) <->
  exists dirpath filenames stem extension,
    In (dirpath, filenames) (os_walk directory) /\
    In (stem ++ extension) filenames /\
    In extension [".jpg"; ".png"; ".jpeg"] /\
    path = path_join dirpath (stem ++ extension).
Proof.
  unfold get_image_files. rewrite in_flat_map. split.
  - intros ([dirpath filenames] & Hd & H). cbn [fst snd] in H.
    apply in_map_iff in H as (filename & <- & H).
    apply filter_In in H as [Hf Hn].
    apply is_image_name_spec in Hn as [stem [->|[->| ->]]];
      exists dirpath, filenames, stem; eexists; repeat split; eauto; cbn; auto.
  - intros (dirpath & filenames & stem & extension & Hd & Hf & He & ->).
    exists (dirpath, filenames). split; [exact Hd|]. cbn [fst snd].
    apply in_map_iff. exists (stem ++ extension). split; [reflexivity|].
    apply filter_In. split; [exact Hf|].
    apply is_image_name_spec. exists stem.
    cbn in He. destruct He as [<-|[<-|[<-|[]]]]; auto.
Qed.

Lemma basename_no_sep (f : string) : has_sep f = false -> basename f = f.
Proof.
  destruct f as [|c r]; cbn; [reflexivity|]. intros H. now rewrite H.
Qed.

Lemma has_sep_app (a b : string) : has_sep (a ++ b) = has_sep a || has_sep b.
Proof.
  induction a as [|c a IH]; cbn; [reflexivity|]. now rewrite IH, orb_assoc.
Qed.

Lemma basename_after_sep (d f : string) :
  has_sep f = false -> basename (d ++ "/" ++ f) = f.
Proof.
  intros H. induction d as [|c d IH].
  - cbn. now apply basename_no_sep.
  - cbn [append basename]. rewrite has_sep_app. cbn [append has_sep].
    cbn. rewrite !orb_true_r. exact IH.
Qed.

(** X2.  The display name of a discovered file is its name in its
    directory: [os.path.basename] undoes [os.path.join] for a file name
    without a separator, whatever the directory path. *)
Theorem display_name_of_joined (dirpath filename : string) :
  has_sep filename = false -> basename (path_join dirpath filename) = filename.
Proof.
  intros H. unfold path_join.
  assert (P : prefix "/" filename = false).
  { destruct filename as [|c r]; [reflexivity|].
    cbn [has_sep] in H. apply orb_false_elim in H as [H _].
    unfold prefix. destruct (ascii_dec "/" c) as [<-|_]; [|reflexivity].
    rewrite Ascii.eqb_refl in H. discriminate. }
  rewrite P. destruct (String.eqb dirpath "") eqn:E; cbn [orb].
  - apply String.eqb_eq in E. subst. cbn. now apply basename_no_sep.
  - destruct (endswith dirpath "/") eqn:S.
    + apply endswith_spec in S as [stem ->]. rewrite append_assoc.
      now apply basename_after_sep.
    + now apply basename_after_sep.
Qed.

Lemma display_name_of_joined_witness :
  has_sep "c.jpeg" = false /\ basename (path_join "pics/sub" "c.jpeg") = "c.jpeg".
Proof.
  split; [reflexivity|].
  apply (display_name_of_joined "pics/sub" "c.jpeg"). reflexivity.
Defined.

Local Open Scope list_scope.

(** ** Comparing two images *)

(** X3.  [calculate_similarity_index] changes nothing in the world.  When
    both images decode it returns the Hamming distance of their
    fingerprints, it returns the same distance with the two paths swapped,
    and the distance is at most the length of the first fingerprint.
    Otherwise it raises the decode error of one of the two paths, which does
    not decode; both files are opened before either is hashed, so a second
    file that cannot be opened is reported even when the first would fail in
    hashing. *)
Theorem calculate_similarity_index_spec
    (image : Type) (Image_open : string -> option image)
    (phash : image -> option fingerprint) (p1 p2 : string) (w : world) :
  snd (calculate_similarity_index Image_open phash p1 p2 w) = w /\
  (forall h1 h2,
      fingerprint_of Image_open phash p1 = Some h1 ->
      fingerprint_of Image_open phash p2 = Some h2 ->
      fst (calculate_similarity_index Image_open phash p1 p2 w) = Ok (hash_sub h1 h2) /\
      fst (calculate_similarity_index Image_open phash p2 p1 w) = Ok (hash_sub h1 h2) /\
      hash_sub h1 h2 <= List.length h1) /\
  (decodable Image_open phash p1 && decodable Image_open phash p2 = false ->
   exists p,
     (p = p1 \/ p = p2) /\ decodable Image_open phash p = false /\
     fst (calculate_similarity_index Image_open phash p1 p2 w)
       = Raise (ImageDecodeError p)) /\
  (forall image1,
      Image_open p1 = Some image1 -> Image_open p2 = None ->
      fst (calculate_similarity_index Image_open phash p1 p2 w)
        = Raise (ImageDecodeError p2)).
Proof.
  rewrite !calculate_similarity_index_run. cbn [fst snd].
  split; [reflexivity|]. split; [|split].
  - intros h1 h2 H1 H2. split; [now apply similarity_ok|]. split.
    + rewrite hash_sub_comm. now apply similarity_ok.
    + apply hash_sub_le.
  - intros D. destruct (similarity_undecodable Image_open phash _ _ D) as [e E].
    destruct (similarity_raise _ _ _ _ E) as (p & -> & Hp & Dp).
    exists p. auto.
  - intros image1 O1 O2. unfold similarity. now rewrite O1, O2.
Qed.

Lemma calculate_similarity_index_spec_witness :
  fingerprint_of Album.Image_open Album.phash "pics/a.jpg" = Some Album.zeros /\
  fingerprint_of Album.Image_open Album.phash "pics/sub/c.jpeg" = Some Album.half /\
  fst (calculate_similarity_index Album.Image_open Album.phash
         "pics/sub/c.jpeg" "pics/a.jpg" Album.fresh) = Ok (hash_sub Album.zeros Album.half).
Proof.
  split; [reflexivity|]. split; [reflexivity|].
  apply (calculate_similarity_index_spec fingerprint Album.Image_open Album.phash
           "pics/a.jpg" "pics/sub/c.jpeg" Album.fresh); reflexivity.
Defined.

(** ** The exit status and the files *)

Section Outcome.

Variable os_walk : string -> list (string * list string).
Variable image : Type.
Variable Image_open : string -> option image.
Variable phash : image -> option fingerprint.
Variable clock : nat -> float.

(** The comparisons all decode exactly when there are fewer than two images
    or every listed image decodes. *)
Lemma rows_ok_iff (image_files : list string) :
  rows_ok Image_open phash image_files (range 0 (List.length image_files)) = true <->
  List.length image_files <= 1 \/
  forall p, In p image_files -> decodable Image_open phash p = true.
Proof.
  split.
  - intros R. destruct (Nat.le_gt_cases (List.length image_files) 1) as [H|H];
      [now left | right].
    intros p Hp. destruct (decodable Image_open phash p) eqn:D; [reflexivity|].
    rewrite (rows_ok_undecodable _ Image_open phash image_files p Hp D) in R by lia.
    discriminate.
  - intros [H|H].
    + now apply (few_images _ Image_open phash NaN image_files).
    + now apply rows_ok_all.
Qed.

End Outcome.

(** X4.  Once the command line is parsed, the script exits with status 0
    exactly when the comparisons all decode (the directory holds fewer than
    two images or every listed image decodes: a single undecodable image is
    never opened) and the output path can be opened and takes the whole
    report; it exits with status 1 exactly when two or more images are listed
    and one of them does not decode, or the report cannot be written in
    full. *)
Theorem exit_status
    (os_walk : string -> list (string * list string))
    (image : Type) (Image_open : string -> option image)
    (phash : image -> option fingerprint) (clock : nat -> float)
    (a : args) (w : world) :
  (fst (main os_walk Image_open phash clock a w) = 0%Z <->
   (List.length (get_image_files os_walk (arg_image_directory a)) <= 1 \/
    forall p, In p (get_image_files os_walk (arg_image_directory a)) ->
              decodable Image_open phash p = true) /\
   takes (media w (arg_output_csv a))
         (S (List.length
               (report_rows (grouping Image_open phash (arg_similarity_threshold a)
                                      (get_image_files os_walk (arg_image_directory a))))))
     = true) /\
  (fst (main os_walk Image_open phash clock a w) = 1%Z <->
   (2 <= List.length (get_image_files os_walk (arg_image_directory a)) /\
    exists p, In p (get_image_files os_walk (arg_image_directory a)) /\
              decodable Image_open phash p = false) \/
   takes (media w (arg_output_csv a))
         (S (List.length
               (report_rows (grouping Image_open phash (arg_similarity_threshold a)
                                      (get_image_files os_walk (arg_image_directory a))))))
     = false).
Proof.
  rewrite <- rows_ok_iff.
  set (fs := get_image_files os_walk (arg_image_directory a)).
  set (n := S (List.length (report_rows (grouping Image_open phash
                                                  (arg_similarity_threshold a) fs)))).
  assert (U : rows_ok Image_open phash fs (range 0 (List.length fs)) = true ->
              ~ (2 <= List.length fs /\
                 exists p, In p fs /\ decodable Image_open phash p = false)).
  { intros R (HN & p & Hp & Dp).
    rewrite (rows_ok_undecodable _ Image_open phash fs p Hp Dp HN) in R. discriminate. }
  destruct (rows_ok Image_open phash fs (range 0 (List.length fs))) eqn:R.
  - destruct (takes (media w (arg_output_csv a)) n) eqn:W.
    + destruct (generate_ok os_walk Image_open phash clock (arg_image_directory a)
                  (arg_similarity_threshold a) (arg_output_csv a) (arg_verbose a)
                  (arg_use_light_model a) (arg_batch_size a) w R W) as (I1 & _).
      rewrite (main_returns os_walk _ Image_open phash clock a w I1).
      split; [tauto|]. split; [discriminate|].
      intros [H|H]; [now apply U in H | discriminate].
    + destruct (generate_unwritable os_walk Image_open phash clock (arg_image_directory a)
                  (arg_similarity_threshold a) (arg_output_csv a) (arg_verbose a)
                  (arg_use_light_model a) (arg_batch_size a) w R W) as (I1 & _).
      rewrite (main_raises os_walk _ Image_open phash clock a w _ I1).
      split; [|tauto]. split; [discriminate | intros [_ H]; discriminate].
  - destruct (generate_raise os_walk Image_open phash clock (arg_image_directory a)
                (arg_similarity_threshold a) (arg_output_csv a) (arg_verbose a)
                (arg_use_light_model a) (arg_batch_size a) w R)
      as (is1 & i & is2 & js1 & j & js2 & e & Ei & _ & Ej & _ & E & I1 & _).
    rewrite (main_raises os_walk _ Image_open phash clock a w e I1).
    split; [split; [discriminate | intros [H _]; discriminate]|].
    split; [intros _ | reflexivity]. left.
    destruct (raised_is_listed _ Image_open phash _ i j is1 is2 js1 js2 e Ei Ej E)
      as (bad & _ & Hin & Hdec & _).
    split; [|now exists bad].
    destruct (Nat.le_gt_cases (List.length fs) 1) as [H|H]; [|exact H].
    apply (few_images _ Image_open phash NaN fs) in H as (R' & _).
    fold fs in R. rewrite R in R'. discriminate.
Qed.

(** The script on the album when the report cannot be opened: status 1. *)
Example locked_output_exits_1 :
  fst (main Album.os_walk Album.Image_open Album.phash Album.clock
            (Args "pics" (Finite (1 # 8)) "out.csv" true false 1) Album.locked) = 1%Z /\
  fst (main Album.os_walk Album.Image_open Album.phash Album.clock
            (Args "single" (Finite (1 # 8)) "out.csv" true false 1) Album.locked) = 1%Z.
Proof. split; vm_compute; reflexivity. Qed.



(** A write that fails after three rows leaves the first three rows of the
    report. *)
Example cramped_report :
  fst (generate_similarity_groups Album.os_walk Album.Image_open Album.phash
         Album.clock "pics" (Finite (1 # 8)) "out.csv" false false 1 Album.cramped)
    = Raise (OSError "out.csv") /\
  option_map (@List.length (list cell))
    (files (snd (generate_similarity_groups Album.os_walk Album.Image_open Album.phash
                   Album.clock "pics" (Finite (1 # 8)) "out.csv" false false 1
                   Album.cramped)) "out.csv") = Some 3.
Proof. split; vm_compute; reflexivity. Qed.

(** ** The report and the dictionary of a run that returns *)

Lemma generate_returns
    (os_walk : string -> list (string * list string))
    (image : Type) (Image_open : string -> option image)
    (phash : image -> option fingerprint) (clock : nat -> float)
    (image_directory : string) (similarity_threshold : pyfloat) (output_csv : string)
    (verbose use_light_model : bool) (batch_size : Z) (w : world) (u : unit) :
  fst (generate_similarity_groups os_walk Image_open phash clock image_directory
         similarity_threshold output_csv verbose use_light_model batch_size w) = Ok u ->
  rows_ok Image_open phash (get_image_files os_walk image_directory)
          (range 0 (List.length (get_image_files os_walk image_directory))) = true /\
  takes (media w output_csv)
        (S (List.length
              (report_rows (grouping Image_open phash similarity_threshold
                                     (get_image_files os_walk image_directory))))) = true.
Proof.
  intros H.
  destruct (rows_ok Image_open phash (get_image_files os_walk image_directory) _) eqn:R.
  - split; [reflexivity|].
    destruct (takes (media w output_csv) _) eqn:W; [reflexivity|].
    destruct (generate_unwritable os_walk Image_open phash clock image_directory
                similarity_threshold output_csv verbose use_light_model batch_size w R W)
      as (I1 & _).
    rewrite I1 in H. discriminate.
  - destruct (generate_raise os_walk Image_open phash clock image_directory
                similarity_threshold output_csv verbose use_light_model batch_size w R)
      as (? & ? & ? & ? & ? & ? & e & _ & _ & _ & _ & _ & I1 & _).
    rewrite I1 in H. discriminate.
Qed.

Lemma report_rows_length (gs : groups) :
  List.length (report_rows gs) = List.length (List.concat (map snd gs)).
Proof.
  unfold report_rows. induction gs as [|g gs IH]; cbn [flat_map map List.concat];
    [reflexivity|].
  rewrite !length_app, length_map. f_equal. exact IH.
Qed.

Lemma report_rows_cells (gs : groups) :
  Forall (fun r => List.length r = 3) (report_rows gs).
Proof.
  unfold report_rows. apply Forall_forall. intros r H.
  apply in_flat_map in H as (g & _ & H). apply in_map_iff in H as (im & <- & _).
  reflexivity.
Qed.

Lemma pair_entries_rows_length
    (image : Type) (Image_open : string -> option image)
    (phash : image -> option fingerprint) (image_files : list string)
    (ps : list (nat * nat)) :
  List.length (flat_map (fun p => pair_entries Image_open phash image_files (fst p) (snd p)) ps)
  = 2 * List.length ps.
Proof.
  induction ps as [|p ps IH]; cbn [flat_map List.length]; [reflexivity|].
  rewrite length_app, IH. cbn. lia.
Qed.

(** X6.  The report of a run that returns has the header row and two data
    rows for every pair that qualifies, each of three cells. *)
Theorem report_size
    (os_walk : string -> list (string * list string))
    (image : Type) (Image_open : string -> option image)
    (phash : image -> option fingerprint) (clock : nat -> float)
    (image_directory : string) (similarity_threshold : pyfloat) (output_csv : string)
    (verbose use_light_model : bool) (batch_size : Z) (w : world) :
  fst (generate_similarity_groups os_walk Image_open phash clock image_directory
         similarity_threshold output_csv verbose use_light_model batch_size w) = Ok tt ->
  exists rows,
    files (snd (generate_similarity_groups os_walk Image_open phash clock
                  image_directory similarity_threshold output_csv verbose
                  use_light_model batch_size w)) output_csv = Some (header :: rows) /\
    List.length rows
      = 2 * List.length (qualifying_pairs Image_open phash similarity_threshold
                                          (get_image_files os_walk image_directory)) /\
    Forall (fun r => List.length r = 3) rows.
Proof.
  intros H. apply generate_returns in H as (R & W).
  destruct (generate_ok os_walk Image_open phash clock image_directory
              similarity_threshold output_csv verbose use_light_model batch_size w R W)
    as (_ & _ & I3).
  eexists. split; [now rewrite I3, String.eqb_refl|]. split.
  - rewrite report_rows_length, grouping_entries. apply pair_entries_rows_length.
  - apply report_rows_cells.
Qed.

Lemma report_size_witness :
  exists rows,
    files (snd (generate_similarity_groups Album.os_walk Album.Image_open Album.phash
                  Album.clock "pics" (Finite (1 # 8)) "out.csv" false false 1
                  Album.fresh)) "out.csv" = Some (header :: rows) /\
    List.length rows = 10.
Proof.
  destruct (report_size Album.os_walk fingerprint Album.Image_open Album.phash Album.clock
              "pics" (Finite (1 # 8)) "out.csv" false false 1 Album.fresh
              ltac:(vm_compute; reflexivity)) as (rows & F & L & _).
  exists rows. split; [exact F|]. rewrite L. vm_compute. reflexivity.
Defined.

Section Keys.

Variable image : Type.
Variable Image_open : string -> option image.
Variable phash : image -> option fingerprint.
Variable similarity_threshold : pyfloat.
Variable image_files : list string.

Local Abbreviation N := (List.length image_files).
Local Abbreviation qual := (qualifies Image_open phash similarity_threshold image_files).
Local Abbreviation pent := (pair_entries Image_open phash image_files).
Local Abbreviation rent := (row_entries Image_open phash similarity_threshold image_files).
Local Abbreviation partner := (has_partner Image_open phash similarity_threshold image_files).

Lemma row_entries_nil (i : nat) : rent i = [] <-> partner i = false.
Proof.
  unfold row_entries, has_partner. generalize (range (i + 1) N). intros js.
  induction js as [|j js IH]; cbn [flat_map existsb]; [tauto|].
  destruct (qual i j); cbn [orb].
  - unfold pair_entries. cbn. split; discriminate.
  - exact IH.
Qed.

Lemma number_from_length (k : nat) (anchors : list nat) :
  List.length (number_from k (map (fun i => (i, rent i)) anchors))
  = List.length (filter partner anchors).
Proof.
  revert k. induction anchors as [|i anchors IH]; intros k; cbn [map number_from filter];
    [reflexivity|].
  pose proof (row_entries_nil i) as E.
  destruct (rent i) as [|e es].
  - rewrite (proj1 E eq_refl). apply IH.
  - destruct (partner i); [|discriminate (proj2 E eq_refl)].
    cbn [List.length number_from]. now rewrite IH.
Qed.

Lemma last_anchor_alone : filter partner (range 0 N) = filter partner (range 0 (N - 1)).
Proof.
  destruct N as [|n] eqn:E; [reflexivity|].
  rewrite !range_0. replace (S n - 1) with n by lia.
  rewrite seq_S, filter_app. cbn [filter plus].
  unfold has_partner at 2. rewrite E. unfold range.
  replace (S n - (n + 1)) with 0 by lia. cbn. apply app_nil_r.
Qed.

Lemma NoDup_group_labels (l : list nat) : NoDup l -> NoDup (map group_label l).
Proof.
  induction 1 as [|x l Hx Hl IH]; cbn [map]; constructor; [|exact IH].
  rewrite in_map_iff. intros (y & E & Hy). apply group_label_inj in E. now subst.
Qed.

Lemma grouping_keys :
  map fst (grouping Image_open phash similarity_threshold image_files)
  = map group_label
        (seq 1 (List.length (grouping Image_open phash similarity_threshold image_files))).
Proof.
  rewrite grouping_closed, labelled_length.
  assert (K : forall l, map fst (labelled l) = map group_label (map fst l)).
  { intros l. unfold labelled. rewrite !map_map. reflexivity. }
  rewrite K. unfold anchored_groups. now rewrite number_from_labels.
Qed.

Lemma grouping_length :
  List.length (grouping Image_open phash similarity_threshold image_files)
  = List.length (filter partner (range 0 N)).
Proof.
  rewrite grouping_closed, labelled_length, length_map. unfold anchored_groups.
  apply number_from_length.
Qed.

End Keys.

(** X7.  The keys of the dictionary a run builds are [Similarity Group 1],
    [Similarity Group 2], ... in order of insertion, without gap or repeat;
    there is one group per image that has a qualifying later image, so at
    most [N - 1] groups for [N] images. *)
Theorem group_keys
    (image : Type) (Image_open : string -> option image)
    (phash : image -> option fingerprint) (clock : nat -> float)
    (similarity_threshold : pyfloat) (verbose : bool)
    (image_files : list string) (w : world) (gs : groups) :
  fst (comparison_loops Image_open phash clock similarity_threshold verbose image_files w)
    = Ok gs ->
  map fst gs = map group_label (seq 1 (List.length gs)) /\
  NoDup (map fst gs) /\
  List.length gs
    = List.length (filter (has_partner Image_open phash similarity_threshold image_files)
                          (range 0 (List.length image_files))) /\
  List.length gs <= List.length image_files - 1.
Proof.
  intros H. apply comparison_loops_returns in H as [_ ->].
  split; [apply grouping_keys|]. split; [|split].
  - rewrite grouping_keys. apply NoDup_group_labels, seq_NoDup.
  - apply grouping_length.
  - rewrite grouping_length, last_anchor_alone.
    etransitivity; [apply filter_length_le|]. unfold range. rewrite length_seq. lia.
Qed.

Lemma group_keys_witness :
  exists gs,
    fst (comparison_loops Album.Image_open Album.phash Album.clock (Finite (1 # 8)) true
                          (get_image_files Album.os_walk "pics") Album.fresh) = Ok gs /\
    map fst gs = map group_label (seq 1 (List.length gs)).
Proof.
  eexists. split; [vm_compute; reflexivity|].
  eapply (group_keys fingerprint Album.Image_open Album.phash Album.clock
            (Finite (1 # 8)) true (get_image_files Album.os_walk "pics") Album.fresh).
  vm_compute. reflexivity.
Defined.

(** ** The console *)

Section Console.

Variable os_walk : string -> list (string * list string).
Variable image : Type.
Variable Image_open : string -> option image.
Variable phash : image -> option fingerprint.
Variable clock : nat -> float.
Variable similarity_threshold : pyfloat.

Lemma quiet_pair_lines (image_files : list string) (i : nat) (js : list nat) :
  flat_map (pair_lines Image_open phash false image_files i) js = [].
Proof. induction js as [|j js IH]; cbn; [reflexivity | exact IH]. Qed.

Lemma quiet_outer_body (image_files : list string) (start_time : float) (i : nat)
      (st : groups * nat) (w : world) :
  console (snd (outer_body Image_open phash clock similarity_threshold false image_files
                           start_time i st w)) = console w.
Proof.
  destruct st as [gs progress].
  destruct (row_ok Image_open phash image_files i
                   (range (i + 1) (List.length image_files))) eqn:R.
  - rewrite (outer_body_ok _ _ clock similarity_threshold false _ start_time _ progress gs w R).
    cbn [snd console]. rewrite quiet_pair_lines. cbn. now rewrite app_nil_r.
  - destruct (outer_body_raise _ _ clock similarity_threshold false _ start_time _
                progress gs w R) as (js1 & j & js2 & e & _ & _ & _ & Run).
    rewrite Run. cbn [snd log console]. rewrite quiet_pair_lines. apply app_nil_r.
Qed.

Lemma quiet_comparison_loops (image_files : list string) (w : world) :
  console (snd (comparison_loops Image_open phash clock similarity_threshold false
                                 image_files w)) = console w.
Proof.
  unfold comparison_loops, bind, time_time.
  pose proof (for_each_world (fun w' => console w' = console w)
                (outer_body Image_open phash clock similarity_threshold false
                            image_files (clock (clock_reads w)))
                (fun x s w' H => eq_trans (quiet_outer_body image_files _ x s w') H)
                (range 0 (List.length image_files)) ([], 0)
                (World (console w) (S (clock_reads w)) (files w) (trace w) (media w)) eq_refl) as K.
  destruct (for_each _ _ _ _) as [[st|e] w']; exact K.
Qed.

Variable image_files : list string.

(** No line printed for a pair is a progress line. *)
Lemma progress_of_pair_lines (verbose : bool) (i : nat) (js : list nat) :
  filter is_progress (flat_map (pair_lines Image_open phash verbose image_files i) js) = [].
Proof.
  induction js as [|j js IH]; cbn [flat_map]; [reflexivity|].
  rewrite filter_app, IH. unfold pair_lines. now destruct verbose.
Qed.

(** The progress lines of the loop over [i]: one for each anchor, with the
    count, the reading of the clock made for it and the extrapolation. *)
Lemma progress_of_loop_lines (r0 n reads a : nat) :
  filter is_progress (loop_lines Image_open phash clock true image_files r0 reads a n)
  = map (fun k =>
           ProgressLine (a + k) (List.length image_files)
                        (clock (reads + k - 1) - clock r0)
                        (eta_formula (clock (reads + k - 1) - clock r0) (a + k)
                                     (List.length image_files)))
        (seq 1 n).
Proof.
  revert reads a. induction n as [|n IH]; intros reads a; [reflexivity|].
  cbn [loop_lines]. rewrite !filter_app, progress_of_pair_lines, IH.
  cbn [progress_lines filter is_progress app seq map].
  replace (reads + 1 - 1) with reads by lia. replace (a + 1) with (S a) by lia.
  f_equal. rewrite <- (seq_shift n 1), map_map. apply map_ext. intros k.
  replace (S reads + k - 1) with (reads + S k - 1) by lia.
  replace (S a + k) with (a + S k) by lia. reflexivity.
Qed.

(** What the loop over [i] prints when every comparison decodes. *)
Lemma outer_loop_lines (verbose : bool) (r0 n a : nat) (gs : groups) (w : world) :
  rows_ok Image_open phash image_files (seq a n) = true ->
  console (snd (for_each (seq a n)
                         (outer_body Image_open phash clock similarity_threshold verbose
                                     image_files (clock r0))
                         (gs, a) w))
  = console w ++ loop_lines Image_open phash clock verbose image_files r0 (clock_reads w) a n.
Proof.
  revert a gs w. induction n as [|n IH]; intros a gs w R.
  - cbn. now rewrite app_nil_r.
  - cbn in R. apply andb_prop in R as [R0 R].
    cbn [seq for_each loop_lines]. unfold bind.
    rewrite (outer_body_ok _ _ clock similarity_threshold verbose _ (clock r0) _ a gs w R0).
    rewrite (IH (S a) _ _ R). cbn [console clock_reads].
    now rewrite <- !app_assoc.
Qed.

Lemma comparison_loops_lines (verbose : bool) (w : world) :
  rows_ok Image_open phash image_files (range 0 (List.length image_files)) = true ->
  console (snd (comparison_loops Image_open phash clock similarity_threshold verbose
                                 image_files w))
  = console w ++ loop_lines Image_open phash clock verbose image_files (clock_reads w)
                            (S (clock_reads w)) 0 (List.length image_files).
Proof.
  intros R. unfold comparison_loops, bind, time_time. rewrite range_0 in *.
  pose proof (outer_loop_lines verbose (clock_reads w) (List.length image_files) 0 []
                (World (console w) (S (clock_reads w)) (files w) (trace w) (media w)) R) as K.
  destruct (for_each _ _ _ _) as [[st|e] w']; exact K.
Qed.

End Console.

(** X8.  With [verbose] off a run prints nothing, whether it returns or
    raises. *)
Theorem quiet_run_prints_nothing
    (os_walk : string -> list (string * list string))
    (image : Type) (Image_open : string -> option image)
    (phash : image -> option fingerprint) (clock : nat -> float)
    (image_directory : string) (similarity_threshold : pyfloat) (output_csv : string)
    (use_light_model : bool) (batch_size : Z) (w : world) :
  console (snd (generate_similarity_groups os_walk Image_open phash clock image_directory
                  similarity_threshold output_csv false use_light_model batch_size w))
  = console w.
Proof.
  unfold generate_similarity_groups, bind. cbn [when ret].
  pose proof (quiet_comparison_loops _ Image_open phash clock similarity_threshold
                (get_image_files os_walk image_directory) w) as K.
  destruct (comparison_loops _ _ _ _ _ _ w) as [[gs|e] w1]; cbn in K |- *; [|exact K].
  pose proof (write_file_console output_csv (header :: report_rows gs) w1) as C.
  destruct (write_file _ _ w1) as [[u|e] w2]; cbn in C |- *; congruence.
Qed.

(** X9.  When every listed image decodes, a verbose run prints exactly one
    progress line for each count 1, 2, ..., N, in this order, after the
    comparisons of the image with that number: the line for count [k] gives
    the total N, the elapsed time as the [k]-th reading of the clock after
    the start minus the reading at the start, and the ETA that the linear
    extrapolation gives for them, all in doubles.  In doubles the ETA at the
    last count need not be 0: see [eta_at_last_count_rounds]. *)
Theorem progress_lines_of_a_run
    (os_walk : string -> list (string * list string))
    (image : Type) (Image_open : string -> option image)
    (phash : image -> option fingerprint) (clock : nat -> float)
    (image_directory : string) (similarity_threshold : pyfloat) (output_csv : string)
    (use_light_model : bool) (batch_size : Z) (w : world) :
  (forall p, In p (get_image_files os_walk image_directory) ->
             decodable Image_open phash p = true) ->
  filter is_progress
    (console (snd (generate_similarity_groups os_walk Image_open phash clock
                     image_directory similarity_threshold output_csv true
                     use_light_model batch_size w)))
  = filter is_progress (console w)
    ++ map (fun k =>
              let elapsed_time :=
                (clock (clock_reads w + k)%nat - clock (clock_reads w))%float in
              ProgressLine k (List.length (get_image_files os_walk image_directory))
                           elapsed_time
                           (elapsed_time / float_of_nat k
                            * float_of_nat
                                (List.length (get_image_files os_walk image_directory))
                            - elapsed_time)%float)
           (seq 1 (List.length (get_image_files os_walk image_directory))).
Proof.
  intros D.
  pose proof (rows_ok_all _ Image_open phash (get_image_files os_walk image_directory)
                (range 0 (List.length (get_image_files os_walk image_directory))) D) as R.
  unfold generate_similarity_groups, bind. cbn [when print fst snd].
  pose proof (comparison_loops_lines _ Image_open phash clock similarity_threshold
                (get_image_files os_walk image_directory) true
                (World (console w ++ [Generating]) (clock_reads w) (files w) (trace w)
                       (media w)) R) as K.
  cbn [console clock_reads] in K.
  assert (L : filter is_progress
                (console w ++ [Generating]
                 ++ loop_lines Image_open phash clock true
                      (get_image_files os_walk image_directory) (clock_reads w)
                      (S (clock_reads w)) 0
                      (List.length (get_image_files os_walk image_directory)))
              = filter is_progress (console w)
                ++ map (fun k =>
                          let elapsed_time :=
                            (clock (clock_reads w + k)%nat - clock (clock_reads w))%float in
                          ProgressLine k
                            (List.length (get_image_files os_walk image_directory))
                            elapsed_time
                            (elapsed_time / float_of_nat k
                             * float_of_nat
                                 (List.length (get_image_files os_walk image_directory))
                             - elapsed_time)%float)
                       (seq 1 (List.length (get_image_files os_walk image_directory)))).
  { rewrite !filter_app, progress_of_loop_lines. cbn [filter is_progress app].
    f_equal. apply map_ext. intros k. cbn zeta. unfold eta_formula.
    replace (S (clock_reads w) + k - 1) with (clock_reads w + k) by lia.
    reflexivity. }
  destruct (comparison_loops _ _ _ _ _ _ _) as [[gs|e] w1]; cbn [fst snd] in K |- *.
  - pose proof (write_file_console output_csv (header :: report_rows gs) w1) as C.
    destruct (write_file _ _ w1) as [[u|e] w2]; cbn [fst snd] in C |- *.
    + unfold print. cbn [snd console]. rewrite C, K, filter_app. cbn [filter is_progress].
      rewrite app_nil_r, <- app_assoc. exact L.
    + rewrite C, K, <- app_assoc. exact L.
  - rewrite K, <- app_assoc. exact L.
Qed.

Lemma progress_lines_of_a_run_witness :
  (forall p, In p (get_image_files Album.os_walk "pics") ->
             decodable Album.Image_open Album.phash p = true) /\
  filter is_progress
    (console (snd (generate_similarity_groups Album.os_walk Album.Image_open Album.phash
                     Album.clock "pics" (Finite (1 # 8)) "out.csv" true false 1
                     Album.fresh)))
  = [ProgressLine 1 4 1 3; ProgressLine 2 4 2 2; ProgressLine 3 4 3 1;
     ProgressLine 4 4 4 0].
Proof.
  assert (D : forall p, In p (get_image_files Album.os_walk "pics") ->
                        decodable Album.Image_open Album.phash p = true).
  { intros p H. vm_compute in H. repeat (destruct H as [<-|H]; [reflexivity|]). destruct H. }
  split; [exact D|].
  rewrite (progress_lines_of_a_run Album.os_walk fingerprint Album.Image_open Album.phash
             Album.clock "pics" (Finite (1 # 8)) "out.csv" false 1 Album.fresh D).
  vm_compute. reflexivity.
Defined.

(** The extrapolation in doubles: after 0.9 seconds at count 3 of 3 the ETA
    is 0.9 / 3 * 3 - 0.9, which is below 0 by one rounding error. *)
Example eta_at_last_count_rounds :
  PrimFloat.ltb (eta_formula (9 / 10) 3 3) 0 = true /\
  eta_formula 3 3 3 = 0%float.
Proof. split; vm_compute; reflexivity. Qed.

(** ** The threshold at its extremes *)

Lemma float_ge_nonneg (s : Q) (t : pyfloat) :
  float_ge 0 t = true -> (0 <= s)%Q -> float_ge s t = true.
Proof.
  destruct t as [q| | |]; cbn; try easy.
  intros G H. apply Qle_bool_iff in G. apply Qle_bool_iff.
  eapply Qle_trans; eassumption.
Qed.

Lemma number_from_full (R : nat -> list entry) (n m a : nat) :
  a + m = n ->
  (forall i, i + 1 < n -> R i <> []) -> (forall i, n <= i + 1 -> R i = []) ->
  number_from (a + 1) (map (fun i => (i, R i)) (seq a m))
  = map (fun i => (i + 1, (i, R i))) (seq a (m - 1)).
Proof.
  intros E Hne Hnil. revert a E. induction m as [|m IH]; intros a E; [reflexivity|].
  cbn [seq map]. destruct m as [|m].
  - cbn [number_from seq map]. rewrite (Hnil a) by lia. reflexivity.
  - specialize (IH (S a) ltac:(lia)).
    pose proof (Hne a ltac:(lia)) as Ha.
    replace (S (S m) - 1) with (S m) by lia.
    replace (S m - 1) with m in IH by lia.
    cbn [seq map]. destruct (R a) as [|e es] eqn:Ea; [congruence|].
    cbn [number_from]. f_equal.
    replace (S (a + 1)) with (S a + 1) by lia. exact IH.
Qed.

Section Extremes.

Variable image : Type.
Variable Image_open : string -> option image.
Variable phash : image -> option fingerprint.
Variable similarity_threshold : pyfloat.
Variable image_files : list string.

Local Abbreviation N := (List.length image_files).
Local Abbreviation qual := (qualifies Image_open phash similarity_threshold image_files).
Local Abbreviation pent := (pair_entries Image_open phash image_files).
Local Abbreviation rent := (row_entries Image_open phash similarity_threshold image_files).

Lemma row_entries_all (i : nat) :
  (forall j, qual i j = true) -> rent i = flat_map (pent i) (range (i + 1) N).
Proof.
  intros H. unfold row_entries. apply flat_map_ext. intros j. now rewrite H.
Qed.

Lemma row_entries_none (i : nat) :
  (forall j, i < j < N -> qual i j = false) -> rent i = [].
Proof.
  intros H. unfold row_entries.
  assert (K : forall js, (forall j, In j js -> i < j < N) ->
                         flat_map (fun j => if qual i j then pent i j else []) js = []).
  { induction js as [|j js IH]; intros Hjs; cbn [flat_map]; [reflexivity|].
    rewrite (H j) by (apply Hjs; now left). cbn [app]. apply IH.
    intros j' Hj'. apply Hjs. now right. }
  apply K. intros j Hj. apply in_range in Hj. lia.
Qed.

Lemma grouping_everything :
  (forall i j, qual i j = true) ->
  grouping Image_open phash similarity_threshold image_files
  = map (fun i => (group_label (i + 1), flat_map (pent i) (range (i + 1) N)))
        (range 0 (N - 1)).
Proof.
  intros H. rewrite grouping_closed. unfold anchored_groups. rewrite !range_0.
  assert (Hne : forall i, i + 1 < N -> rent i <> []).
  { intros i Hi. rewrite row_entries_all by auto. unfold range.
    replace (N - (i + 1)) with (S (N - (i + 1) - 1)) by lia.
    cbn [seq flat_map]. unfold pair_entries. discriminate. }
  assert (Hnil : forall i, N <= i + 1 -> rent i = []).
  { intros i Hi. rewrite row_entries_all by auto. unfold range.
    replace (N - (i + 1)) with 0 by lia. reflexivity. }
  pose proof (number_from_full rent N N 0 eq_refl Hne Hnil) as K.
  cbn [Nat.add] in K. rewrite K.
  unfold labelled. rewrite !map_map. apply map_ext. intros i.
  unfold strip. cbn [fst snd]. now rewrite row_entries_all.
Qed.

Lemma grouping_nothing :
  (forall i j, i < j < N -> qual i j = false) ->
  grouping Image_open phash similarity_threshold image_files = [].
Proof.
  intros H. rewrite grouping_closed. unfold anchored_groups.
  generalize (range 0 N). intros anchors. generalize 1.
  induction anchors as [|i anchors IH]; intros k; cbn [map number_from]; [reflexivity|].
  rewrite (row_entries_none i) by auto. apply IH.
Qed.

End Extremes.

(** X10.  With a threshold of at most 0 every pair qualifies: when all
    listed images decode, the run builds [N - 1] groups, one for every image
    but the last, and the group of image [i] is labelled [i + 1] and holds
    the image paired with every later image in turn. *)
Theorem threshold_at_most_zero
    (image : Type) (Image_open : string -> option image)
    (phash : image -> option fingerprint) (clock : nat -> float)
    (similarity_threshold : pyfloat) (verbose : bool)
    (image_files : list string) (w : world) :
  float_ge 0 similarity_threshold = true ->
  (forall p, In p image_files -> decodable Image_open phash p = true) ->
  fst (comparison_loops Image_open phash clock similarity_threshold verbose image_files w)
  = Ok (map (fun i => (group_label (i + 1),
                       flat_map (pair_entries Image_open phash image_files i)
                                (range (i + 1) (List.length image_files))))
            (range 0 (List.length image_files - 1))).
Proof.
  intros G D.
  pose proof (rows_ok_all _ Image_open phash image_files
                (range 0 (List.length image_files)) D) as R.
  destruct (comparison_loops_ok Image_open phash clock similarity_threshold verbose
              image_files w R) as (I1 & _).
  rewrite I1. f_equal. apply grouping_everything.
  intros i j. unfold qualifies. apply float_ge_nonneg; [exact G|].
  apply normalize_nonneg.
Qed.

Lemma threshold_at_most_zero_witness :
  float_ge 0 (Finite 0) = true /\
  (forall p, In p (get_image_files Album.os_walk "pics") ->
             decodable Album.Image_open Album.phash p = true) /\
  exists gs,
    fst (comparison_loops Album.Image_open Album.phash Album.clock (Finite 0) false
                          (get_image_files Album.os_walk "pics") Album.fresh) = Ok gs /\
    List.length gs = 3.
Proof.
  assert (D : forall p, In p (get_image_files Album.os_walk "pics") ->
                        decodable Album.Image_open Album.phash p = true).
  { intros p H. vm_compute in H. repeat (destruct H as [<-|H]; [reflexivity|]). destruct H. }
  split; [reflexivity|]. split; [exact D|].
  eexists. split.
  - apply (threshold_at_most_zero fingerprint Album.Image_open Album.phash Album.clock
             (Finite 0) false (get_image_files Album.os_walk "pics") Album.fresh
             eq_refl D).
  - reflexivity.
Defined.

(** X11.  A threshold that no score reaches yields no group.  The score of
    fingerprints of at most [L] bits is at most L/256, so a threshold above
    L/256, the threshold +infinity or a NaN gives the empty dictionary when
    all listed images decode: with 64-bit fingerprints every threshold above
    1/4 does.  (The threshold -infinity is below every score, and every pair
    qualifies with it.) *)
Theorem threshold_out_of_reach
    (image : Type) (Image_open : string -> option image)
    (phash : image -> option fingerprint) (clock : nat -> float)
    (similarity_threshold : pyfloat) (verbose : bool)
    (image_files : list string) (w : world) (L : nat) :
  (forall p, In p image_files ->
             exists h, fingerprint_of Image_open phash p = Some h /\ List.length h <= L) ->
  float_lt (Finite (Z.of_nat L # 256)) similarity_threshold \/ similarity_threshold = NaN ->
  fst (comparison_loops Image_open phash clock similarity_threshold verbose image_files w)
  = Ok [].
Proof.
  intros D T.
  assert (R : rows_ok Image_open phash image_files (range 0 (List.length image_files)) = true).
  { apply rows_ok_all. intros p Hp. destruct (D p Hp) as (h & E & _).
    unfold decodable. now rewrite E. }
  destruct (comparison_loops_ok Image_open phash clock similarity_threshold verbose
              image_files w R) as (I1 & _).
  rewrite I1. f_equal. apply grouping_nothing. intros i j Hij.
  unfold qualifies, score, hash_at.
  destruct (D (nth i image_files "") ltac:(apply nth_In; lia)) as (hi & Ei & Li).
  rewrite Ei.
  set (raw := hash_sub hi _).
  assert (B : (normalize raw <= Z.of_nat L # 256)%Q).
  { pose proof (hash_sub_le hi
                  match fingerprint_of Image_open phash (nth j image_files "") with
                  | Some h => h
                  | None => []
                  end) as Hle.
    fold raw in Hle. unfold normalize, Qle. cbn. lia. }
  destruct T as [T| ->]; [|reflexivity].
  destruct similarity_threshold as [q| | |]; cbn in T |- *; try easy.
  destruct (Qle_bool q (normalize raw)) eqn:E; [|reflexivity].
  apply Qle_bool_iff in E. exfalso.
  eapply Qlt_irrefl, Qlt_le_trans; [exact T|]. eapply Qle_trans; eassumption.
Qed.

Lemma threshold_out_of_reach_witness :
  float_lt (Finite (Z.of_nat 64 # 256)) (Finite (1 # 2)) /\
  fst (comparison_loops Album.Image_open Album.phash Album.clock (Finite (1 # 2)) false
                        (get_image_files Album.os_walk "pics") Album.fresh) = Ok [].
Proof.
  split; [reflexivity|].
  apply (threshold_out_of_reach fingerprint Album.Image_open Album.phash Album.clock
           (Finite (1 # 2)) false (get_image_files Album.os_walk "pics") Album.fresh 64).
  - intros p H. vm_compute in H.
    repeat (destruct H as [<-|H]; [eexists; split; [reflexivity | cbn; lia]|]).
    destruct H.
  - left. reflexivity.
Defined.

(** ** Where the entries come from *)

(** X12.  The entries of the groups of a run that returns are exactly the
    entries of the pairs that qualify: an entry is in some group if and only
    if it is the display name of one image of a pair [i < j] whose score
    meets the threshold, together with that score. *)
Theorem entries_are_qualifying_pairs
    (image : Type) (Image_open : string -> option image)
    (phash : image -> option fingerprint) (clock : nat -> float)
    (similarity_threshold : pyfloat) (verbose : bool)
    (image_files : list string) (w : world) (gs : groups) (e : entry) :
  fst (comparison_loops Image_open phash clock similarity_threshold verbose image_files w)
    = Ok gs ->
  ((exists label es, In (label, es) gs /\ In e es) <->
   exists i j,
     i < j < List.length image_files /\
     float_ge (score Image_open phash image_files i j) similarity_threshold = true /\
     (e = (display_name image_files i, score Image_open phash image_files i j) \/
      e = (display_name image_files j, score Image_open phash image_files i j))).
Proof.
  intros H. apply comparison_loops_returns in H as [_ ->].
  assert (K : (exists label es,
                  In (label, es) (grouping Image_open phash similarity_threshold image_files)
                  /\ In e es)
              <-> In e (List.concat
                          (map snd (grouping Image_open phash similarity_threshold
                                             image_files)))).
  { rewrite in_concat. split.
    - intros (label & es & H1 & H2). exists es. split; [|exact H2].
      apply in_map_iff. exists (label, es). auto.
    - intros (es & H1 & H2). apply in_map_iff in H1 as ([label es'] & E & H1).
      cbn in E. subst es'. eauto. }
  rewrite K, grouping_entries, in_flat_map. split.
  - intros ([i j] & Hp & He). apply filter_In in Hp as [Hp Hq].
    apply in_all_pairs in Hp. cbn [fst snd] in *.
    exists i, j. repeat split; try lia; [exact Hq|].
    unfold pair_entries in He. cbn in He. destruct He as [<-|[<-|[]]]; auto.
  - intros (i & j & Hij & Hq & He). exists (i, j). split.
    + apply filter_In. split; [now apply in_all_pairs | exact Hq].
    + cbn [fst snd]. unfold pair_entries. cbn. destruct He as [->| ->]; auto.
Qed.

Lemma entries_are_qualifying_pairs_witness :
  exists i j,
    i < j < List.length (get_image_files Album.os_walk "pics") /\
    float_ge (score Album.Image_open Album.phash (get_image_files Album.os_walk "pics") i j)
             (Finite (1 # 8)) = true /\
    (("c.jpeg", 32 # 256)
       = (display_name (get_image_files Album.os_walk "pics") i,
          score Album.Image_open Album.phash (get_image_files Album.os_walk "pics") i j) \/
     ("c.jpeg", 32 # 256)
       = (display_name (get_image_files Album.os_walk "pics") j,
          score Album.Image_open Album.phash (get_image_files Album.os_walk "pics") i j)).
Proof.
  eapply (entries_are_qualifying_pairs fingerprint Album.Image_open Album.phash Album.clock
            (Finite (1 # 8)) true (get_image_files Album.os_walk "pics") Album.fresh).
  - vm_compute. reflexivity.
  - eexists. eexists. split; [right; right; left; reflexivity|]. left. reflexivity.
Defined.
